(** * ray_art_admin: the product modal, the upload adapter and the newsletter list

    A shallow embedding of
    - [AddProductModal] (the product creation / update form),
    - [uploadToCloudinary] (src/lib/cloudinary.ts),
    - [NewsletterPage] (the debounced, paginated newsletter list),
    together with the parts of the JavaScript runtime these three rely on
    ([String.prototype.split], [trim], [Array.prototype.join], [parseFloat],
    [String(...)], truthiness). *)

From Stdlib Require Import List Bool Ascii String NArith ZArith QArith Qpower Lia.
From Stdlib Require DecimalN DecimalPos.
Import ListNotations.

Open Scope list_scope.

(* ===================================================================== *)
(** * The JavaScript runtime *)
(* ===================================================================== *)

Module JS.

(** ** Strings

    A JavaScript string is a sequence of UTF-16 code units. *)

Definition code_unit := N.
Definition jsstring := list code_unit.

(** A literal of the source, code unit by code unit. *)
Fixpoint lit (s : string) : jsstring :=
  match s with
  | EmptyString => []
  | String c s' => N_of_ascii c :: lit s'
  end.

Definition jsstring_eq_dec : forall s t : jsstring, {s = t} + {s <> t} :=
  list_eq_dec N.eq_dec.

Definition str_eqb (s t : jsstring) : bool :=
  if jsstring_eq_dec s t then true else false.

(** [!s] is true exactly for the empty string. *)
Definition str_truthy (s : jsstring) : bool :=
  match s with [] => false | _ :: _ => true end.

(** [a || b] on strings. *)
Definition str_or (a b : jsstring) : jsstring :=
  if str_truthy a then a else b.

(** The line feed, the separator of [split('\n')] and [join('\n')]. *)
Definition LF : code_unit := 10%N.

(** WhiteSpace and LineTerminator code units (ECMA-262, 12.2 and 12.3):
    TAB, LF, VT, FF, CR, SP, NBSP, the Unicode space separators, LS, PS
    and the byte order mark. *)
Definition is_white (c : code_unit) : bool :=
  (  (9 <=? c) && (c <=? 13)
  || (c =? 32) || (c =? 160) || (c =? 5760)
  || ((8192 <=? c) && (c <=? 8202))
  || (c =? 8232) || (c =? 8233) || (c =? 8239) || (c =? 8287)
  || (c =? 12288) || (c =? 65279))%N.

(** [String.prototype.trimStart]. *)
Fixpoint trimStart (s : jsstring) : jsstring :=
  match s with
  | [] => []
  | c :: s' => if is_white c then trimStart s' else s
  end.

(** [String.prototype.trimEnd]. *)
Definition trimEnd (s : jsstring) : jsstring :=
  rev (trimStart (rev s)).

(** [String.prototype.trim]. *)
Definition trim (s : jsstring) : jsstring :=
  trimEnd (trimStart s).

(** [s.split(sep)] for a separator [sep] of one code unit. The result is
    never empty: the empty string splits into one empty piece. *)
Fixpoint split (sep : code_unit) (s : jsstring) : list jsstring :=
  match s with
  | [] => [[]]
  | c :: s' =>
      if (c =? sep)%N then [] :: split sep s'
      else match split sep s' with
           | [] => [[c]]
           | piece :: pieces => (c :: piece) :: pieces
           end
  end.

(** [arr.join(sep)] on an array of strings, [sep] of one code unit. *)
Fixpoint join (sep : code_unit) (arr : list jsstring) : jsstring :=
  match arr with
  | [] => []
  | [x] => x
  | x :: rest => x ++ sep :: join sep rest
  end.

(** [s.startsWith(p)], returning what follows the prefix. *)
Fixpoint strip_prefix (p s : jsstring) : option jsstring :=
  match p, s with
  | [], _ => Some s
  | a :: p', b :: s' => if (a =? b)%N then strip_prefix p' s' else None
  | _ :: _, [] => None
  end.

(** ** Numbers

    A Number is kept as the exact decimal it was read from, sign, digits
    and power of ten: [Finite neg m e] stands for (-1)^neg * m * 10^e.
    The rounding of that decimal to a binary64 value is not modelled: a
    Number here is the Number of the program where binary64 holds the
    decimal exactly. *)

Inductive number :=
| NaN
| Infinity (neg : bool)
| Finite (neg : bool) (m : N) (e : Z).

Definition zero : number := Finite false 0 0.

Definition of_N (n : N) : number := Finite false n 0.

(** [!!x] for a Number: false for NaN, +0 and -0. *)
Definition num_truthy (x : number) : bool :=
  match x with
  | NaN => false
  | Infinity _ => true
  | Finite _ m _ => negb (m =? 0)%N
  end.

(** [x || y] on Numbers. *)
Definition num_or (x y : number) : number :=
  if num_truthy x then x else y.


(** *** Decimal digits *)

Definition is_digit (c : code_unit) : bool := ((48 <=? c) && (c <=? 57))%N.

(** The value of a run of decimal digits, most significant first. *)
Definition digits_value (ds : jsstring) : N :=
  fold_left (fun acc c => (10 * acc + (c - 48))%N) ds 0%N.

(** The longest run of decimal digits at the head of a string, and the
    rest of the string. *)
Fixpoint take_digits (s : jsstring) : jsstring * jsstring :=
  match s with
  | c :: s' =>
      if is_digit c
      then let (ds, r) := take_digits s' in (c :: ds, r)
      else ([], s)
  | [] => ([], [])
  end.

Fixpoint uint_digits (u : Decimal.uint) : jsstring :=
  match u with
  | Decimal.Nil => []
  | Decimal.D0 u => 48%N :: uint_digits u
  | Decimal.D1 u => 49%N :: uint_digits u
  | Decimal.D2 u => 50%N :: uint_digits u
  | Decimal.D3 u => 51%N :: uint_digits u
  | Decimal.D4 u => 52%N :: uint_digits u
  | Decimal.D5 u => 53%N :: uint_digits u
  | Decimal.D6 u => 54%N :: uint_digits u
  | Decimal.D7 u => 55%N :: uint_digits u
  | Decimal.D8 u => 56%N :: uint_digits u
  | Decimal.D9 u => 57%N :: uint_digits u
  end.

(** The decimal digits of a natural number, "0" for zero. *)
Definition N_digits (n : N) : jsstring := uint_digits (N.to_uint n).

(** *** parseFloat (ECMA-262, 19.2.4)

    Leading white space is dropped, then the longest prefix that is a
    StrDecimalLiteral is read; without such a prefix the result is NaN.

    StrDecimalLiteral ::: [+-]? StrUnsignedDecimalLiteral
    StrUnsignedDecimalLiteral :::
        Infinity
      | DecimalDigits . DecimalDigits? ExponentPart?
      | . DecimalDigits ExponentPart?
      | DecimalDigits ExponentPart?
    ExponentPart ::: [eE] [+-]? DecimalDigits *)

(** An optional sign: true for '-'. *)
Definition scan_sign (s : jsstring) : bool * jsstring :=
  match s with
  | c :: r =>
      if (c =? 43)%N then (false, r)
      else if (c =? 45)%N then (true, r)
      else (false, s)
  | [] => (false, s)
  end.

(** ExponentPart?: the exponent read, 0 when there is no complete
    exponent part at the head of the string. *)
Definition scan_exponent (s : jsstring) : Z :=
  match s with
  | c :: r =>
      if ((c =? 101) || (c =? 69))%N then
        let (neg, r') := scan_sign r in
        let (ds, _) := take_digits r' in
        match ds with
        | [] => 0%Z
        | _ :: _ =>
            let v := Z.of_N (digits_value ds) in
            if neg then (- v)%Z else v
        end
      else 0%Z
  | [] => 0%Z
  end.

(** The three numeric alternatives of StrUnsignedDecimalLiteral: digits
    and power of ten of the longest prefix, if there is one. *)
Definition scan_unsigned (s : jsstring) : option (N * Z) :=
  let (ip, r1) := take_digits s in
  let no_point :=
    match ip with
    | [] => None
    | _ :: _ => Some (digits_value ip, scan_exponent r1)
    end in
  match r1 with
  | c :: r2 =>
      if (c =? 46)%N then
        let (fp, r3) := take_digits r2 in
        match ip ++ fp with
        | [] => None
        | _ :: _ =>
            Some (digits_value (ip ++ fp),
                  (scan_exponent r3 - Z.of_nat (List.length fp))%Z)
        end
      else no_point
  | [] => no_point
  end.

Definition parseFloat (s : jsstring) : number :=
  let (neg, r) := scan_sign (trimStart s) in
  match strip_prefix (lit "Infinity") r with
  | Some _ => Infinity neg
  | None =>
      match scan_unsigned r with
      | Some (m, e) => Finite neg m e
      | None => NaN
      end
  end.

(** *** Number::toString (ECMA-262, 6.1.6.1.20), radix 10 *)

(** Trailing zeros of a digit string dropped, with their count. *)
Definition strip_trailing_zeros (ds : jsstring) : jsstring * nat :=
  let fix go (r : jsstring) (z : nat) : jsstring * nat :=
    match r with
    | c :: r' => if (c =? 48)%N then go r' (S z) else (rev r, z)
    | [] => ([], z)
    end in
  go (rev ds) 0%nat.

Definition number_toString (x : number) : jsstring :=
  match x with
  | NaN => lit "NaN"
  | Infinity neg => (if neg then lit "-" else []) ++ lit "Infinity"
  | Finite neg m e =>
      if (m =? 0)%N then lit "0" else
      let (s, z) := strip_trailing_zeros (N_digits m) in
      let k := Z.of_nat (List.length s) in
      let n := (k + Z.of_nat z + e)%Z in
      let body :=
        if ((k <=? n) && (n <=? 21))%Z then
          s ++ repeat 48%N (Z.to_nat (n - k))
        else if ((0 <? n) && (n <=? 21))%Z then
          firstn (Z.to_nat n) s ++ lit "." ++ skipn (Z.to_nat n) s
        else if ((-6 <? n) && (n <=? 0))%Z then
          lit "0." ++ repeat 48%N (Z.to_nat (- n)) ++ s
        else
          let ex := (n - 1)%Z in
          let exs := (if (ex <? 0)%Z then lit "-" else lit "+")
                     ++ N_digits (Z.abs_N ex) in
          match s with
          | [d] => [d] ++ lit "e" ++ exs
          | d :: ds => [d] ++ lit "." ++ ds ++ lit "e" ++ exs
          | [] => []
          end in
      (if neg then lit "-" else []) ++ body
  end.

(** ** Values of type [any]

    The primitive values a JSON record of the backend can hold in a
    field, [undefined] standing for an absent field. *)

Inductive jsval :=
| VUndefined
| VNull
| VBool (b : bool)
| VNum (x : number)
| VStr (s : jsstring).

(** ToBoolean. *)
Definition truthy (v : jsval) : bool :=
  match v with
  | VUndefined | VNull => false
  | VBool b => b
  | VNum x => num_truthy x
  | VStr s => str_truthy s
  end.

(** ToString, as [String(v)] and a template literal apply it. *)
Definition ToString (v : jsval) : jsstring :=
  match v with
  | VUndefined => lit "undefined"
  | VNull => lit "null"
  | VBool true => lit "true"
  | VBool false => lit "false"
  | VNum x => number_toString x
  | VStr s => s
  end.

(** [v || d] for an optional string field [v] ([None]: absent or null). *)
Definition opt_or (v : option jsstring) (d : jsstring) : jsstring :=
  match v with
  | Some s => str_or s d
  | None => d
  end.

Definition opt_truthy (v : option jsstring) : bool :=
  match v with
  | Some s => str_truthy s
  | None => false
  end.

End JS.

Import JS.

(* ===================================================================== *)
(** * Handlers as programs over the component state *)
(* ===================================================================== *)

(** An event handler reads and writes the state its component holds in
    [useState] cells, acts on the outside (a notification, a request, a
    callback of the parent) and may throw. A handler is run as one step:
    what it does after an [await] follows what it did before, with no
    other event in between. *)

Module Handler.

Inductive Outcome (A : Type) :=
| Returned (a : A)
| Thrown (error : jsstring).

Arguments Returned {A} a.
Arguments Thrown {A} error.

Section Monad.
Variables St Eff : Type.

Definition M (A : Type) := St -> Outcome A * St * list Eff.

Definition ret {A} (a : A) : M A := fun s => (Returned a, s, []).

Definition bind {A B} (c : M A) (k : A -> M B) : M B :=
  fun s =>
    match c s with
    | (Returned a, s1, t1) =>
        match k a s1 with
        | (o, s2, t2) => (o, s2, t1 ++ t2)
        end
    | (Thrown e, s1, t1) => (Thrown e, s1, t1)
    end.

Definition get : M St := fun s => (Returned s, s, []).
Definition modify (f : St -> St) : M unit := fun s => (Returned tt, f s, []).
Definition emit (e : Eff) : M unit := fun s => (Returned tt, s, [e]).
Definition throw {A} (error : jsstring) : M A := fun s => (Thrown error, s, []).

(** [try { body } catch (error) { handler } finally { final }]: the
    state written before a throw stays written. *)
Definition try_catch_finally {A}
    (body : M A) (handler : jsstring -> M A) (final : M unit) : M A :=
  fun s =>
    match body s with
    | (o1, s1, t1) =>
        match (match o1 with
               | Returned a => (Returned a, s1, [])
               | Thrown e => handler e s1
               end) with
        | (o2, s2, t2) =>
            match final s2 with
            | (Returned _, s3, t3) => (o2, s3, t1 ++ t2 ++ t3)
            | (Thrown e, s3, t3) => (Thrown e, s3, t1 ++ t2 ++ t3)
            end
        end
    end.
End Monad.

Arguments ret {St Eff A} a.
Arguments bind {St Eff A B} c k.
Arguments get {St Eff}.
Arguments modify {St Eff} f.
Arguments emit {St Eff} e.
Arguments throw {St Eff A} error.
Arguments try_catch_finally {St Eff A} body handler final.

Declare Scope handler_scope.
Delimit Scope handler_scope with handler.
Notation "x <- c ;; k" := (bind c (fun x => k))
  (at level 61, c at next level, right associativity) : handler_scope.
Notation "c ;; k" := (bind c (fun _ => k))
  (at level 61, right associativity) : handler_scope.

End Handler.

Import Handler.
Open Scope handler_scope.

(* ===================================================================== *)
(** * src/lib/cloudinary.ts *)
(* ===================================================================== *)

Module Cloudinary.

Record CloudinaryUploadResult := {
  secure_url : jsstring;
  public_id : jsstring;
  (* [key: string]: any *)
  metadata : list (jsstring * jsval)
}.

(** An error value, by its message. *)
Inductive Error := mkError (message : jsstring).

(** What [upload_stream] is given besides the callback. *)
Record UploadOptions := {
  folder : jsstring;
  resource_type : jsstring
}.

(** The state of the promise [uploadToCloudinary] returns. *)
Inductive Promise :=
| Pending
| Resolved (value : CloudinaryUploadResult)
| Rejected (reason : Error).

(** The callback handed to [upload_stream]:
    [(error, result) => { if (error) return reject(error);
                          if (!result) return reject(new Error(...));
                          resolve(result) }].
    [None] is [undefined]. *)
Definition callback (error : option Error) (result : option CloudinaryUploadResult)
  : Promise :=
  match error with
  | Some e => Rejected e
  | None =>
      match result with
      | None => Rejected (mkError (lit "Cloudinary upload failed: No result returned"))
      | Some r => Resolved r
      end
  end.

(** [uploadToCloudinary(fileBuffer, folder = 'products')]. The provider
    stands for [cloudinary.uploader.upload_stream] fed with the buffer: it
    answers through the callback, once, or never does ([None]). *)
Definition uploadToCloudinary
    (provider : UploadOptions -> list N ->
                option (option Error * option CloudinaryUploadResult))
    (fileBuffer : list N) (folder : option jsstring) : Promise :=
  let folder := match folder with Some f => f | None => lit "products" end in
  match provider {| folder := folder; resource_type := lit "auto" |} fileBuffer with
  | Some (error, result) => callback error result
  | None => Pending
  end.

End Cloudinary.

(* ===================================================================== *)
(** * AddProductModal *)
(* ===================================================================== *)

(** The [product] prop: a record as the products endpoint serves it. The
    text fields are strings when present; [id], [price] and
    [originalPrice] are kept as values of type [any], since the component
    tests and converts them. *)
Module Product.
Inductive Features :=
| FeaturesArray (items : list jsstring)
| FeaturesText (text : jsstring)
| FeaturesAbsent.

Record t := {
  id : jsval;
  name : option jsstring;
  description : option jsstring;
  features : Features;
  price : jsval;
  originalPrice : jsval;
  imageUrl : option jsstring;
  category : option jsstring;
  subCategory : option jsstring
}.
End Product.

(** The object [handleAddProduct] serialises into the request body. *)
Module ProductData.
Record t := {
  name : jsstring;
  description : jsstring;
  features : list jsstring;
  price : number;
  originalPrice : number;
  imageUrl : jsstring;
  category : jsstring;
  subCategory : jsstring
}.
End ProductData.

Module AddProductModal.

(** The draft held in [newProduct]. *)
Record Draft := {
  name : jsstring;
  description : jsstring;
  features : jsstring;
  price : jsstring;
  originalPrice : jsstring;
  imageUrl : jsstring;
  category : jsstring;
  subCategory : jsstring
}.

Definition emptyDraft : Draft :=
  {| name := []; description := []; features := []; price := [];
     originalPrice := []; imageUrl := []; category := []; subCategory := [] |}.

(** A [File] of the file input, with what a [FileReader] makes of it
    ([None]: the read failed and [reader.result] is null). *)
Record File := {
  fileName : jsstring;
  dataURL : option jsstring
}.

Record State := {
  isSubmitting : bool;
  isUploading : bool;
  selectedFile : option File;
  imagePreview : option jsstring;
  newProduct : Draft
}.

Definition initialState : State :=
  {| isSubmitting := false; isUploading := false; selectedFile := None;
     imagePreview := None; newProduct := emptyDraft |}.

Inductive Method := POST | PUT.

Record Request := {
  url : jsstring;
  method : Method;
  (* headers: { 'Content-Type': 'application/json' } *)
  body : ProductData.t
}.

(** The reply of the save endpoint once [response.json()] has read it. *)
Record SaveResult := {
  success : bool;
  message : option jsstring
}.

(** [await fetch(...)] followed by [await response.json()]: either step
    may throw. *)
Inductive FetchOutcome :=
| FetchThrows (error : jsstring)
| FetchJson (result : SaveResult).

Record FormData := {
  formFile : File;
  formCategory : jsstring
}.

Record UploadResult := {
  uploadSuccess : bool;
  uploadUrl : option jsstring;
  uploadMessage : option jsstring
}.

Inductive UploadOutcome :=
| UploadThrows (error : jsstring)
| UploadReturns (result : UploadResult).

(** What a handler does to the outside, in order. *)
Inductive Effect :=
| PreventDefault
| ToastError (msg : jsstring)
| ToastSuccess (msg : jsstring)
| ConsoleError (label error : jsstring)
| Fetch (request : Request)
| UploadImageAction (formData : FormData)
| OnClose
| OnSuccess.

Definition H := M State Effect.

(** The setters of the [useState] cells. *)
Definition setIsSubmitting (b : bool) : H unit :=
  modify (fun s =>
    {| isSubmitting := b; isUploading := isUploading s;
       selectedFile := selectedFile s; imagePreview := imagePreview s;
       newProduct := newProduct s |}).

Definition setIsUploading (b : bool) : H unit :=
  modify (fun s =>
    {| isSubmitting := isSubmitting s; isUploading := b;
       selectedFile := selectedFile s; imagePreview := imagePreview s;
       newProduct := newProduct s |}).

Definition setSelectedFile (f : option File) : H unit :=
  modify (fun s =>
    {| isSubmitting := isSubmitting s; isUploading := isUploading s;
       selectedFile := f; imagePreview := imagePreview s;
       newProduct := newProduct s |}).

Definition setImagePreview (p : option jsstring) : H unit :=
  modify (fun s =>
    {| isSubmitting := isSubmitting s; isUploading := isUploading s;
       selectedFile := selectedFile s; imagePreview := p;
       newProduct := newProduct s |}).

(** [setNewProduct(prev => f(prev))]; [setNewProduct(d)] is the constant
    update. *)
Definition setNewProduct (f : Draft -> Draft) : H unit :=
  modify (fun s =>
    {| isSubmitting := isSubmitting s; isUploading := isUploading s;
       selectedFile := selectedFile s; imagePreview := imagePreview s;
       newProduct := f (newProduct s) |}).

(** [{ ...d, imageUrl: v }] and the like. *)
Definition with_name (v : jsstring) (d : Draft) : Draft :=
  {| name := v; description := description d; features := features d;
     price := price d; originalPrice := originalPrice d; imageUrl := imageUrl d;
     category := category d; subCategory := subCategory d |}.

Definition with_description (v : jsstring) (d : Draft) : Draft :=
  {| name := name d; description := v; features := features d;
     price := price d; originalPrice := originalPrice d; imageUrl := imageUrl d;
     category := category d; subCategory := subCategory d |}.

Definition with_features (v : jsstring) (d : Draft) : Draft :=
  {| name := name d; description := description d; features := v;
     price := price d; originalPrice := originalPrice d; imageUrl := imageUrl d;
     category := category d; subCategory := subCategory d |}.

Definition with_price (v : jsstring) (d : Draft) : Draft :=
  {| name := name d; description := description d; features := features d;
     price := v; originalPrice := originalPrice d; imageUrl := imageUrl d;
     category := category d; subCategory := subCategory d |}.

Definition with_originalPrice (v : jsstring) (d : Draft) : Draft :=
  {| name := name d; description := description d; features := features d;
     price := price d; originalPrice := v; imageUrl := imageUrl d;
     category := category d; subCategory := subCategory d |}.

Definition with_imageUrl (v : jsstring) (d : Draft) : Draft :=
  {| name := name d; description := description d; features := features d;
     price := price d; originalPrice := originalPrice d; imageUrl := v;
     category := category d; subCategory := subCategory d |}.

Definition with_subCategory (v : jsstring) (d : Draft) : Draft :=
  {| name := name d; description := description d; features := features d;
     price := price d; originalPrice := originalPrice d; imageUrl := imageUrl d;
     category := category d; subCategory := v |}.

(** [{ ...d, category: v, subCategory: '' }]. *)
Definition with_category (v : jsstring) (d : Draft) : Draft :=
  {| name := name d; description := description d; features := features d;
     price := price d; originalPrice := originalPrice d; imageUrl := imageUrl d;
     category := v; subCategory := [] |}.

(** The conversion of the features textarea in [handleAddProduct]:
    [newProduct.features
       ? newProduct.features.split('\n').filter(f => f.trim() !== '') : []]. *)
Definition featuresArray (d : Draft) : list jsstring :=
  if str_truthy (features d)
  then filter (fun f => negb (str_eqb (trim f) [])) (split LF (features d))
  else [].

(** [{ ...newProduct, price: parseFloat(newProduct.price) || 0,
       originalPrice: parseFloat(newProduct.originalPrice) || 0,
       features: featuresArray }]. *)
Definition productData (d : Draft) : ProductData.t :=
  {| ProductData.name := name d;
     ProductData.description := description d;
     ProductData.features := featuresArray d;
     ProductData.price := num_or (parseFloat (price d)) zero;
     ProductData.originalPrice := num_or (parseFloat (originalPrice d)) zero;
     ProductData.imageUrl := imageUrl d;
     ProductData.category := category d;
     ProductData.subCategory := subCategory d |}.

(** [!!product?.id]. *)
Definition isEditing (product : option Product.t) : bool :=
  match product with
  | Some p => truthy (Product.id p)
  | None => false
  end.

Definition handleReset : H unit :=
  setNewProduct (fun _ => emptyDraft) ;;
  setSelectedFile None ;;
  setImagePreview None ;;
  setIsUploading false.

Definition handleClose : H unit :=
  handleReset ;;
  emit OnClose.

Section Component.
(** [process.env.NEXT_PUBLIC_BASE_URL], [undefined] when unset. *)
Variable NEXT_PUBLIC_BASE_URL : jsval.
(** The table of '@/utils/constant', as a lookup by category. *)
Variable PRODUCT_SUB_CATEGORIES : jsstring -> option (list jsstring).
(** The [product] prop: [None] in create mode. *)
Variable product : option Product.t.

(** The effect that runs when [product] or [isOpen] changes. *)
Definition populate : H unit :=
  match product with
  | Some p =>
      setNewProduct (fun _ =>
        {| name := opt_or (Product.name p) [];
           description := opt_or (Product.description p) [];
           features :=
             match Product.features p with
             | Product.FeaturesArray items => join LF items
             | Product.FeaturesText text => str_or text []
             | Product.FeaturesAbsent => []
             end;
           price := str_or (ToString (Product.price p)) [];
           originalPrice := str_or (ToString (Product.originalPrice p)) [];
           imageUrl := opt_or (Product.imageUrl p) [];
           category := opt_or (Product.category p) [];
           subCategory := opt_or (Product.subCategory p) [] |}) ;;
      if opt_truthy (Product.imageUrl p)
      then setImagePreview (Product.imageUrl p)
      else ret tt
  | None => handleReset
  end.

(** [handleFileChange], on the files of the input; the preview is set
    when the reader has finished. *)
Definition handleFileChange (files : list File) : H unit :=
  match hd_error files with
  | Some file =>
      setSelectedFile (Some file) ;;
      (match product with
       | None => setNewProduct (with_imageUrl [])
       | Some _ => ret tt
       end) ;;
      (* reader.onloadend *)
      setImagePreview (dataURL file)
  | None => ret tt
  end.

Definition handleUploadImage (uploadImageAction : FormData -> UploadOutcome)
  : H unit :=
  st <- get ;;
  match selectedFile st with
  | None => emit (ToastError (lit "Please select an image first"))
  | Some file =>
      try_catch_finally
        (setIsUploading true ;;
         let formData :=
           {| formFile := file;
              formCategory := str_or (category (newProduct st)) (lit "products") |} in
         emit (UploadImageAction formData) ;;
         match uploadImageAction formData with
         | UploadThrows error => throw error
         | UploadReturns uploadResult =>
             if uploadSuccess uploadResult && opt_truthy (uploadUrl uploadResult)
             then
               setNewProduct (with_imageUrl (opt_or (uploadUrl uploadResult) [])) ;;
               emit (ToastSuccess (lit "Image uploaded successfully"))
             else
               throw (opt_or (uploadMessage uploadResult) (lit "Image upload failed"))
         end)
        (fun error =>
           emit (ConsoleError (lit "Error uploading image:") error) ;;
           emit (ToastError (lit "Failed to upload image")))
        (setIsUploading false)
  end.

(** [handleAddProduct], the submit handler of the form. [server] is
    what the save endpoint makes of a request. *)
Definition handleAddProduct (server : Request -> FetchOutcome) : H unit :=
  emit PreventDefault ;;
  st <- get ;;
  let newProduct := newProduct st in
  if negb (str_truthy (imageUrl newProduct)) then
    emit (ToastError (lit "Please upload an image for the product"))
  else
    try_catch_finally
      (setIsSubmitting true ;;
       let productData := productData newProduct in
       let isEditing := isEditing product in
       let url :=
         match product with
         | Some p =>
             if isEditing
             then ToString NEXT_PUBLIC_BASE_URL ++ lit "/api/products/"
                    ++ ToString (Product.id p)
             else ToString NEXT_PUBLIC_BASE_URL ++ lit "/api/products"
         | None => ToString NEXT_PUBLIC_BASE_URL ++ lit "/api/products"
         end in
       let request :=
         {| url := url;
            method := if isEditing then PUT else POST;
            body := productData |} in
       emit (Fetch request) ;;
       match server request with
       | FetchThrows error => throw error
       | FetchJson result =>
           if success result then
             emit (ToastSuccess
                     (opt_or (message result)
                        (lit "Product " ++ (if isEditing then lit "updated" else lit "added")
                           ++ lit " successfully"))) ;;
             handleClose ;;
             emit OnSuccess
           else
             emit (ToastError
                     (opt_or (message result)
                        (lit "Failed to " ++ (if isEditing then lit "update" else lit "add")
                           ++ lit " product")))
       end)
      (fun error =>
         emit (ConsoleError (lit "Error saving product:") error) ;;
         emit (ToastError (lit "Failed to save product")))
      (setIsSubmitting false).

(** [subCategoryOptions], what the sub-category dropdown offers. *)
Definition subCategoryOptions (d : Draft) : list jsstring :=
  if str_truthy (category d)
  then match PRODUCT_SUB_CATEGORIES (category d) with
       | Some options => options
       | None => []
       end
  else [].

(** The [onChange] handlers of the form fields, each
    [setNewProduct({ ...newProduct, field: val })]. *)
Inductive Edit :=
| EditName (val : jsstring)
| EditCategory (val : jsstring)
| EditSubCategory (val : jsstring)
| EditPrice (val : jsstring)
| EditOriginalPrice (val : jsstring)
| EditDescription (val : jsstring)
| EditFeatures (val : jsstring).

Definition onChange (e : Edit) : H unit :=
  st <- get ;;
  let newProduct := newProduct st in
  match e with
  | EditName val => setNewProduct (fun _ => with_name val newProduct)
  | EditCategory val => setNewProduct (fun _ => with_category val newProduct)
  | EditSubCategory val => setNewProduct (fun _ => with_subCategory val newProduct)
  | EditPrice val => setNewProduct (fun _ => with_price val newProduct)
  | EditOriginalPrice val => setNewProduct (fun _ => with_originalPrice val newProduct)
  | EditDescription val => setNewProduct (fun _ => with_description val newProduct)
  | EditFeatures val => setNewProduct (fun _ => with_features val newProduct)
  end.
End Component.

(** The request [handleAddProduct] issues for a draft, spelled out. *)
Definition request_for (base : jsval) (product : option Product.t) (d : Draft)
  : Request :=
  {| url :=
       match product with
       | Some p =>
           if truthy (Product.id p)
           then ToString base ++ lit "/api/products/" ++ ToString (Product.id p)
           else ToString base ++ lit "/api/products"
       | None => ToString base ++ lit "/api/products"
       end;
     method := if isEditing product then PUT else POST;
     body := productData d |}.

(** Running a handler: the state it leaves and what it did. *)
Definition state_after (h : H unit) (st : State) : State := snd (fst (h st)).
Definition effects_of (h : H unit) (st : State) : list Effect := snd (h st).

(** The requests among the effects, and the notifications. *)
Definition requests (tr : list Effect) : list Request :=
  flat_map (fun e => match e with Fetch r => [r] | _ => [] end) tr.

Definition is_toast (e : Effect) : bool :=
  match e with
  | ToastError _ | ToastSuccess _ => true
  | _ => false
  end.

Definition toasts (tr : list Effect) : list Effect := filter is_toast tr.

(** No stale sub-category: the draft has none, or one that the dropdown
    offers for the category it holds. *)
Definition subCategory_fits
    (PRODUCT_SUB_CATEGORIES : jsstring -> option (list jsstring)) (d : Draft) : Prop :=
  subCategory d = [] \/ In (subCategory d) (subCategoryOptions PRODUCT_SUB_CATEGORIES d).

(** An edit the form can deliver: the sub-category dropdown hands over
    one of the options it shows. *)
Definition offered
    (PRODUCT_SUB_CATEGORIES : jsstring -> option (list jsstring))
    (d : Draft) (e : Edit) : Prop :=
  match e with
  | EditSubCategory val => In val (subCategoryOptions PRODUCT_SUB_CATEGORIES d)
  | _ => True
  end.

End AddProductModal.

(* ===================================================================== *)
(** * NewsletterPage *)
(* ===================================================================== *)

Module NewsletterPage.

Record Newsletter := {
  id : Z;
  email : jsstring;
  createdAt : jsstring;
  updatedAt : jsstring
}.

Record NewsletterPagination := {
  currentPage : Z;
  itemsPerPage : Z;
  hasMore : bool;
  offset : Z;
  total : Z
}.

(** The [useState] cells of the page, as one render sees them. *)
Record State := {
  emails : list Newsletter;
  loading : bool;
  searchQuery : jsstring;
  pagination : NewsletterPagination
}.

Definition initialState : State :=
  {| emails := []; loading := true; searchQuery := [];
     pagination := {| currentPage := 1; itemsPerPage := 10; hasMore := false;
                      offset := 0; total := 0 |} |}.

(** The query parameters of the GET request on /api/admin/newsletter. *)
Record Query := {
  page : Z;
  limit : Z;
  search : jsstring
}.

(** The reply to a request once [response.json()] has read it, or the
    failure of either step. *)
Inductive Reply :=
| ReplyThrows (error : jsstring)
| ReplyJson (success : bool) (data : list Newsletter)
            (pagination : option NewsletterPagination) (message : option jsstring).

(** What the page does to the outside; a request carries the time, in
    milliseconds, at which it is issued. *)
Inductive Effect :=
| Fetch (time : N) (query : Query)
| ToastError (msg : jsstring)
| ConsoleError (label error : jsstring).

(** A timeout set and neither run nor cleared: the identifier
    [setTimeout] returned for it, when it is due, and the render whose
    [fetchNewsletters] and [searchQuery] its callback closes over. *)
Record Timer := {
  ident : N;
  due : N;
  closure : State
}.

(** The page in time: the clock, the current render, the timeouts
    pending in the browser (by the time they are due), the identifier
    the next [setTimeout] returns, the [delayDebounceFn] that the cleanup
    of the last run of the debounce effect holds, and what has been done
    so far. *)
Record Page := {
  now : N;
  view : State;
  timers : list Timer;
  fresh : N;
  delayDebounceFn : option N;
  trace : list Effect
}.

Definition setLoading (b : bool) (s : State) : State :=
  {| emails := emails s; loading := b; searchQuery := searchQuery s;
     pagination := pagination s |}.

Definition setEmails (l : list Newsletter) (s : State) : State :=
  {| emails := l; loading := loading s; searchQuery := searchQuery s;
     pagination := pagination s |}.

Definition setSearchQuery (q : jsstring) (s : State) : State :=
  {| emails := emails s; loading := loading s; searchQuery := q;
     pagination := pagination s |}.

Definition setPagination (p : NewsletterPagination) (s : State) : State :=
  {| emails := emails s; loading := loading s; searchQuery := searchQuery s;
     pagination := p |}.

(** The page with another render, and with other timeouts. *)
Definition with_view (v : State) (p : Page) : Page :=
  {| now := now p; view := v; timers := timers p; fresh := fresh p;
     delayDebounceFn := delayDebounceFn p; trace := trace p |}.

Definition with_timers (l : list Timer) (p : Page) : Page :=
  {| now := now p; view := view p; timers := l; fresh := fresh p;
     delayDebounceFn := delayDebounceFn p; trace := trace p |}.

(** The debounce delay of the effect, in milliseconds. *)
Definition delay : N := 500.

(** [fetchNewsletters(page, search)] up to its [await]: called from the
    render [closure], whose [pagination] it reads, at time [t]. *)
Definition fetchNewsletters (closure : State) (t : N) (page : Z) (search : jsstring)
    (p : Page) : Page :=
  {| now := now p;
     view := setLoading true (view p);
     timers := timers p;
     fresh := fresh p;
     delayDebounceFn := delayDebounceFn p;
     trace := trace p ++
              [Fetch t {| page := page;
                          limit := itemsPerPage (pagination closure);
                          search := search |}] |}.

(** [fetchNewsletters] from its [await] on, when the reply is there. *)
Definition fetchNewsletters_resume (r : Reply) (p : Page) : Page :=
  match r with
  | ReplyJson true data pg _ =>
      let v := setEmails data (view p) in
      let v := match pg with Some pg => setPagination pg v | None => v end in
      with_view (setLoading false v) p
  | ReplyJson false _ _ msg =>
      {| now := now p; view := setLoading false (view p); timers := timers p;
         fresh := fresh p; delayDebounceFn := delayDebounceFn p;
         trace := trace p ++ [ToastError (opt_or msg (lit "Failed to fetch newsletters"))] |}
  | ReplyThrows error =>
      {| now := now p; view := setLoading false (view p); timers := timers p;
         fresh := fresh p; delayDebounceFn := delayDebounceFn p;
         trace := trace p ++ [ConsoleError (lit "Error fetching newsletters:") error;
                              ToastError (lit "Failed to fetch newsletters")] |}
  end.

(** A timeout takes its place among the pending ones: after those due
    no later than it is. *)
Fixpoint enqueue (tm : Timer) (pending : list Timer) : list Timer :=
  match pending with
  | [] => [tm]
  | x :: pending' =>
      if (due x <=? due tm)%N then x :: enqueue tm pending'
      else tm :: pending
  end.

(** [setTimeout(callback, ms)] for a callback of the render [closure]:
    a timeout is added, none is cancelled; the identifier returned is
    [fresh p]. *)
Definition setTimeout (closure : State) (ms : N) (p : Page) : Page :=
  {| now := now p; view := view p;
     timers := enqueue {| ident := fresh p; due := now p + ms; closure := closure |}
                 (timers p);
     fresh := fresh p + 1;
     delayDebounceFn := delayDebounceFn p;
     trace := trace p |}.

(** [clearTimeout(id)]: the timeout with that identifier, if it is
    still pending, is dropped. *)
Definition clearTimeout (id : N) (p : Page) : Page :=
  with_timers (filter (fun tm => negb (ident tm =? id)%N) (timers p)) p.

(** The body of the debounce effect, run after a render in which
    [searchQuery] is new:
    [const delayDebounceFn = setTimeout(() => fetchNewsletters(1, searchQuery), 500)];
    the cleanup it returns holds that [delayDebounceFn]. *)
Definition schedule (p : Page) : Page :=
  let p' := setTimeout (view p) delay p in
  {| now := now p'; view := view p'; timers := timers p'; fresh := fresh p';
     delayDebounceFn := Some (fresh p); trace := trace p' |}.

(** The cleanup of the last run of the effect:
    [clearTimeout(delayDebounceFn)]. *)
Definition cleanup (p : Page) : Page :=
  match delayDebounceFn p with
  | Some id => clearTimeout id p
  | None => p
  end.

(** The callback of a timeout: [fetchNewsletters(1, searchQuery)] of its
    render, at the time the timeout was due. *)
Definition run_timer (p : Page) (tm : Timer) : Page :=
  fetchNewsletters (closure tm) (due tm) 1 (searchQuery (closure tm)) p.

(** Time passes until [t]: the timeouts that have come due by then run
    their callbacks, the earlier due first, and are spent. *)
Definition advance (t : N) (p : Page) : Page :=
  let t := N.max (now p) t in
  let ripe := filter (fun tm => (due tm <=? t)%N) (timers p) in
  let rest := filter (fun tm => negb (due tm <=? t)%N) (timers p) in
  fold_left run_timer ripe
    {| now := t; view := view p; timers := rest; fresh := fresh p;
       delayDebounceFn := delayDebounceFn p; trace := trace p |}.

(** The page when it mounts at time [t]: the first render, after which
    the effect runs once. *)
Definition mount (t : N) : Page :=
  schedule {| now := t; view := initialState; timers := []; fresh := 1;
              delayDebounceFn := None; trace := [] |}.

(** [onChange] of the search box: [setSearchQuery(e.target.value)]. A
    value equal to the one held leaves the state as it is, so nothing is
    rendered and no effect runs; a new value renders, and the effect
    cleans up and runs again. *)
Definition handleSearchChange (value : jsstring) (p : Page) : Page :=
  if str_eqb value (searchQuery (view p)) then p
  else schedule (cleanup (with_view (setSearchQuery value (view p)) p)).

(** [handlePageChange(page)]: [fetchNewsletters(page)], the search text
    defaulting to the [searchQuery] of the current render. *)
Definition handlePageChange (page : Z) (p : Page) : Page :=
  fetchNewsletters (view p) (now p) page (searchQuery (view p)) p.

(** What happens to the page, with the time at which it happens. *)
Inductive Event :=
| Input (t : N) (value : jsstring)
| PageClick (t : N) (page : Z)
| Response (t : N) (r : Reply)
| Wait (t : N).

Definition step (p : Page) (e : Event) : Page :=
  match e with
  | Input t value => handleSearchChange value (advance t p)
  | PageClick t page => handlePageChange page (advance t p)
  | Response t r => fetchNewsletters_resume r (advance t p)
  | Wait t => advance t p
  end.

Definition run (p : Page) (events : list Event) : Page :=
  fold_left step events p.

(** The requests among the effects. *)
Definition fetches (tr : list Effect) : list (N * Query) :=
  flat_map (fun e => match e with Fetch t q => [(t, q)] | _ => [] end) tr.

(** A burst of keystrokes: each one changes the text of the box and
    follows the one before by less than the delay. [t0] and [v0] are the
    time and text before the first of them. *)
Fixpoint burst (t0 : N) (v0 : jsstring) (keys : list (N * jsstring)) : bool :=
  match keys with
  | [] => true
  | (t, v) :: keys' =>
      (t0 <=? t)%N && (t <? t0 + delay)%N && negb (str_eqb v v0) && burst t v keys'
  end.

(** No timeout is pending but, at most, the one the cleanup of the
    effect holds. *)
Definition tidy (p : Page) : Prop :=
  timers p = []
  \/ exists tm, timers p = [tm] /\ delayDebounceFn p = Some (ident tm).

(** The page right after a keystroke at [t] that set the text to [v]:
    the timeout of that render is pending, the cleanup holds it, and no
    other timeout is pending. *)
Definition armed (t : N) (v : jsstring) (p : Page) : Prop :=
  now p = t
  /\ searchQuery (view p) = v
  /\ exists id,
       timers p = [{| ident := id; due := t + delay; closure := view p |}]
       /\ delayDebounceFn p = Some id.

End NewsletterPage.

(* ===================================================================== *)
(** * The words of the specification *)
(* ===================================================================== *)

Module SpecWords.

(** ** The feature list: the text split on line breaks, blank lines
    removed, order kept. *)

(** The lines of a text, read left to right: a line ends at each line
    break and at the end of the text. *)
Fixpoint lines_from (current : jsstring) (text : jsstring) : list jsstring :=
  match text with
  | [] => [current]
  | c :: text' =>
      if (c =? LF)%N then current :: lines_from [] text'
      else lines_from (current ++ [c]) text'
  end.

Definition lines (text : jsstring) : list jsstring := lines_from [] text.

(** A blank line holds white space only. *)
Definition blank (line : jsstring) : bool := forallb is_white line.

Definition feature_list (text : jsstring) : list jsstring :=
  filter (fun line => negb (blank line)) (lines text).

(** ** Decimal strings and the values they denote *)

(** A decimal numeral, part by part: an optional sign (true for '-'),
    the digits before the point, the digits after the point when there
    is a point, and an exponent part (upper or lower case indicator,
    optional sign, digits) when there is one. *)
Record numeral := {
  sign : option bool;
  integral : jsstring;
  fraction : option jsstring;
  exponent : option (bool * option bool * jsstring)
}.



Definition render_sign (s : option bool) : jsstring :=
  match s with
  | None => []
  | Some false => lit "+"
  | Some true => lit "-"
  end.

Definition render_fraction (f : option jsstring) : jsstring :=
  match f with
  | Some ds => lit "." ++ ds
  | None => []
  end.

Definition render_exponent (e : option (bool * option bool * jsstring)) : jsstring :=
  match e with
  | Some (upper, s, ds) => (if upper then lit "E" else lit "e") ++ render_sign s ++ ds
  | None => []
  end.

(** The string that writes a numeral. *)
Definition render (n : numeral) : jsstring :=
  render_sign (sign n) ++ integral n
  ++ render_fraction (fraction n) ++ render_exponent (exponent n).


















End SpecWords.

(* ===================================================================== *)
(** * Sample data *)
(* ===================================================================== *)

Module Samples.
Import AddProductModal.

Definition base : jsval := VStr (lit "https://admin.example").

Definition chair : Draft :=
  {| name := lit "Oak chair";
     description := lit "A chair";
     features := lit "Oak" ++ [LF; LF] ++ lit "Hand made" ++ [LF];
     price := lit "1500.00";
     originalPrice := lit "abc";
     imageUrl := lit "https://res.cloudinary.com/demo/chair.png";
     category := lit "furniture";
     subCategory := lit "chairs" |}.

Definition form (d : Draft) : State :=
  {| isSubmitting := false; isUploading := false; selectedFile := None;
     imagePreview := None; newProduct := d |}.

(** A stored product with the identifier [id]. *)
Definition stored (id : jsval) : Product.t :=
  {| Product.id := id;
     Product.name := Some (lit "Oak chair");
     Product.description := Some (lit "A chair");
     Product.features := Product.FeaturesArray [lit "Oak"; lit "Hand made"];
     Product.price := VNum (of_N 1500);
     Product.originalPrice := VNum (of_N 1800);
     Product.imageUrl := Some (lit "https://res.cloudinary.com/demo/chair.png");
     Product.category := Some (lit "furniture");
     Product.subCategory := Some (lit "chairs") |}.

(** A stored product that has no prices. *)
Definition unpriced : Product.t :=
  {| Product.id := VNum (of_N 42);
     Product.name := Some (lit "Oak chair");
     Product.description := None;
     Product.features := Product.FeaturesAbsent;
     Product.price := VUndefined;
     Product.originalPrice := VUndefined;
     Product.imageUrl := Some (lit "https://res.cloudinary.com/demo/chair.png");
     Product.category := Some (lit "furniture");
     Product.subCategory := Some (lit "chairs") |}.

Definition accepts (_ : Request) : FetchOutcome :=
  FetchJson {| success := true; message := None |}.

Definition refuses (msg : option jsstring) (_ : Request) : FetchOutcome :=
  FetchJson {| success := false; message := msg |}.

Definition table (category : jsstring) : option (list jsstring) :=
  if str_eqb category (lit "furniture")
  then Some [lit "chairs"; lit "tables"]
  else None.

(** An upload action that stores the file and answers with its URL. *)
Definition uploads (_ : FormData) : UploadOutcome :=
  UploadReturns
    {| uploadSuccess := true;
       uploadUrl := Some (lit "https://res.cloudinary.com/demo/chair.png");
       uploadMessage := None |}.

Definition photo : File :=
  {| fileName := lit "chair.png"; dataURL := Some (lit "data:image/png;base64,AAAA") |}.


(** A provider that answers with neither an error nor a result. *)
Definition silent (_ : Cloudinary.UploadOptions) (_ : list N)
  : option (option Cloudinary.Error * option Cloudinary.CloudinaryUploadResult) :=
  Some (None, None).

Definition hosted : Cloudinary.CloudinaryUploadResult :=
  {| Cloudinary.secure_url := lit "https://res.cloudinary.com/demo/chair.png";
     Cloudinary.public_id := lit "products/chair";
     Cloudinary.metadata := [] |}.

Definition hosts (_ : Cloudinary.UploadOptions) (_ : list N)
  : option (option Cloudinary.Error * option Cloudinary.CloudinaryUploadResult) :=
  Some (None, Some hosted).

End Samples.

(* ===================================================================== *)
(** * What the components render *)
(* ===================================================================== *)

(** [Math.ceil(a / b)] on integers.

    The program divides in binary64. For integers that binary64 holds
    exactly and tells apart from their neighbours, those below 2^53 in
    magnitude, a quotient that is not an integer is further from the
    integers around it than half the step of binary64 there, so the
    rounded quotient has the ceiling of the exact one; a zero result
    keeps the sign of the quotient. For greater integers the rounded
    quotient can fall on the integer below the exact one; their result
    is not given here. *)
Module JSMath.

Definition of_Z (z : Z) : number := Finite (z <? 0)%Z (Z.abs_N z) 0.

(** [Number.isSafeInteger], for an integer. *)
Definition isSafeInteger (z : Z) : bool := (Z.abs z <? 2 ^ 53)%Z.

Definition ceil_quotient (a b : Z) : option number :=
  if isSafeInteger a && isSafeInteger b then
    Some
      (if (b =? 0)%Z then
         if (a =? 0)%Z then NaN else Infinity (a <? 0)%Z
       else
         let c := (- ((- a) / b))%Z in
         if (c =? 0)%Z
         then Finite (if (a =? 0)%Z then (b <? 0)%Z else true) 0 0
         else of_Z c)
  else None.

End JSMath.

(** The parts of the modal that depend on its state. *)
Module ModalView.
Import AddProductModal.

Definition given {A : Type} (o : option A) : bool :=
  match o with
  | Some _ => true
  | None => false
  end.

(** The "Upload Image" button. *)
Record UploadButton := {
  uploadDisabled : bool;
  (* the green style of a button whose file is uploaded *)
  uploadDone : bool;
  uploadLabel : jsstring
}.

Record View := {
  title : jsstring;
  (* the [src] of the preview image; [None]: "Click to select image" *)
  preview : option jsstring;
  (* [None]: the button is not rendered *)
  uploadButton : option UploadButton;
  subCategoryChoices : list jsstring;
  subCategoryDisabled : bool;
  cancelDisabled : bool;
  submitDisabled : bool;
  submitLabel : jsstring
}.

Definition render
    (PRODUCT_SUB_CATEGORIES : jsstring -> option (list jsstring))
    (product : option Product.t) (st : State) : View :=
  {| title := if given product then lit "Update Product" else lit "Add New Product";
     preview :=
       match imagePreview st with
       | Some src => if str_truthy src then Some src else None
       | None => None
       end;
     uploadButton :=
       match selectedFile st with
       | Some _ =>
           Some {| uploadDisabled :=
                     isUploading st
                     || (str_truthy (imageUrl (newProduct st))
                         && negb (given (selectedFile st)));
                   uploadDone :=
                     str_truthy (imageUrl (newProduct st))
                     && given (selectedFile st);
                   uploadLabel :=
                     if isUploading st then lit "Uploading..."
                     else lit "Upload Image" |}
       | None => None
       end;
     subCategoryChoices := subCategoryOptions PRODUCT_SUB_CATEGORIES (newProduct st);
     subCategoryDisabled := negb (str_truthy (category (newProduct st)));
     cancelDisabled := isSubmitting st || isUploading st;
     submitDisabled := isSubmitting st || isUploading st;
     submitLabel :=
       if isSubmitting st
       then (if given product then lit "Updating..." else lit "Adding...")
       else (if given product then lit "Update Product" else lit "Add Product") |}.

(** The callbacks of the parent among the effects. *)
Definition is_callback (e : Effect) : bool :=
  match e with
  | OnClose | OnSuccess => true
  | _ => false
  end.

Definition callbacks (tr : list Effect) : list Effect := filter is_callback tr.

(** The calls of the upload action among the effects. *)
Definition uploads_of (tr : list Effect) : list FormData :=
  flat_map (fun e => match e with UploadImageAction fd => [fd] | _ => [] end) tr.

(** Whether a handler returned or threw. *)
Definition outcome_of (h : H unit) (st : State) : Outcome unit := fst (fst (h st)).

(** An upload outcome the handler takes for a success: the action
    returned, reports success and carries a non-empty URL. *)
Definition upload_ok (o : UploadOutcome) : option jsstring :=
  match o with
  | UploadReturns r =>
      if uploadSuccess r && opt_truthy (uploadUrl r) then uploadUrl r else None
  | UploadThrows _ => None
  end.

(** What [handleUploadImage] logs when an upload fails. *)
Definition upload_error (o : UploadOutcome) : jsstring :=
  match o with
  | UploadThrows error => error
  | UploadReturns r => opt_or (uploadMessage r) (lit "Image upload failed")
  end.

(** A feature that survives the trip through the textarea: it holds no
    line break and is not blank. *)
Definition plain_feature (f : jsstring) : bool :=
  negb (existsb (fun c => (c =? LF)%N) f) && negb (forallb is_white f).

End ModalView.

(** The table and the pagination control of the newsletter page. *)
Module Pagination.
(* the props of '@/components/ui/Pagination', [onPageChange] aside;
   [maxPageReached] is there for the totals and page sizes on which
   [JSMath.ceil_quotient] gives the number the program computes *)
Record Props := {
  currentPage : Z;
  maxPageReached : option number;
  canGoNext : bool;
  canGoPrev : bool;
  itemsOnCurrentPage : nat;
  itemsPerPage : Z;
  hasMore : bool
}.
End Pagination.

Module NewsletterView.
Import NewsletterPage.

Inductive Row :=
| Placeholder
| Entry (key : Z) (email date : jsstring).

Inductive Main :=
| LoadingState
| Listing (rows : list Row) (pagination : option Pagination.Props).

Section Render.
(** [new Date(createdAt).toLocaleDateString()], which goes by the locale
    of the browser. *)
Variable toLocaleDateString : jsstring -> jsstring.

Definition rows_of (emails : list Newsletter) : list Row :=
  match emails with
  | [] => [Placeholder]
  | _ :: _ =>
      map (fun item => Entry (id item) (email item)
                         (toLocaleDateString (createdAt item)))
        emails
  end.

Definition render (s : State) : Main :=
  if loading s then LoadingState
  else
    Listing (rows_of (emails s))
      (if negb (loading s) && (0 <? List.length (emails s))%nat
       then Some {| Pagination.currentPage := currentPage (pagination s);
                    Pagination.maxPageReached :=
                      JSMath.ceil_quotient (total (pagination s))
                        (itemsPerPage (pagination s));
                    Pagination.canGoNext := hasMore (pagination s);
                    Pagination.canGoPrev := (1 <? currentPage (pagination s))%Z;
                    Pagination.itemsOnCurrentPage := List.length (emails s);
                    Pagination.itemsPerPage := itemsPerPage (pagination s);
                    Pagination.hasMore := hasMore (pagination s) |}
       else None).
End Render.

Definition data_rows (rows : list Row) : list Row :=
  filter (fun r => match r with Entry _ _ _ => true | Placeholder => false end) rows.

Definition placeholders (rows : list Row) : nat :=
  List.length (filter (fun r => match r with Placeholder => true | _ => false end) rows).

(** Keystrokes far apart: each one changes the text of the box and
    comes no sooner than the delay after the one before. *)
Fixpoint spaced (t0 : N) (v0 : jsstring) (keys : list (N * jsstring)) : bool :=
  match keys with
  | [] => true
  | (t, v) :: keys' =>
      (t0 + delay <=? t)%N && negb (str_eqb v v0) && spaced t v keys'
  end.

(** The fetch the debounce issues for a keystroke. *)
Definition debounced (limit : Z) (key : N * jsstring) : Effect :=
  Fetch (fst key + delay) {| page := 1; limit := limit; search := snd key |}.

(** The pending timeouts are in hand: there is at most one, and it is
    the one the cleanup of the effect holds, it will search for the text
    the box holds, and it is due within the delay. *)
Definition timer_fresh (p : Page) : Prop :=
  (List.length (timers p) <= 1)%nat
  /\ forall tm, In tm (timers p) ->
       delayDebounceFn p = Some (ident tm)
       /\ searchQuery (closure tm) = searchQuery (view p)
       /\ (due tm <= now p + delay)%N.

Definition is_click (e : Event) : bool :=
  match e with
  | PageClick _ _ => true
  | _ => false
  end.

(** Every request among the effects asks for page 1. *)
Definition first_page_only (tr : list Effect) : Prop :=
  Forall (fun q => page (snd q) = 1%Z) (fetches tr).

End NewsletterView.

Module MoreSamples.
Import AddProductModal.

(** A server whose connection fails. *)
Definition unreachable (_ : Request) : FetchOutcome :=
  FetchThrows (lit "TypeError: Failed to fetch").

(** An upload action that reports a failure with a message. *)
Definition rejects (_ : FormData) : UploadOutcome :=
  UploadReturns
    {| uploadSuccess := false; uploadUrl := None;
       uploadMessage := Some (lit "File too large") |}.

(** The form with the sample photo selected. *)
Definition picked (d : Draft) : State :=
  {| isSubmitting := false; isUploading := false;
     selectedFile := Some Samples.photo;
     imagePreview := dataURL Samples.photo; newProduct := d |}.

Definition subscriber (n : Z) (address : string) : NewsletterPage.Newsletter :=
  {| NewsletterPage.id := n; NewsletterPage.email := lit address;
     NewsletterPage.createdAt := lit "2024-05-01T10:00:00.000Z";
     NewsletterPage.updatedAt := lit "2024-05-01T10:00:00.000Z" |}.

End MoreSamples.

(* ===================================================================== *)
(** * Facts about the runtime *)
(* ===================================================================== *)

Module JSFacts.

Lemma str_eqb_eq (s t : jsstring) : str_eqb s t = true <-> s = t.
Proof.
  unfold str_eqb. destruct (jsstring_eq_dec s t); split; congruence.
Qed.

Lemma str_eqb_neq (s t : jsstring) : str_eqb s t = false <-> s <> t.
Proof.
  unfold str_eqb. destruct (jsstring_eq_dec s t); split; congruence.
Qed.

Lemma str_truthy_nonempty (s : jsstring) : str_truthy s = true <-> s <> [].
Proof. destruct s; simpl; split; congruence. Qed.

Lemma str_or_truthy (s d : jsstring) : s <> [] -> str_or s d = s.
Proof. destruct s; unfold str_or; simpl; congruence. Qed.

(** ** trim *)

Lemma trimStart_nil_iff (s : jsstring) :
  trimStart s = [] <-> forallb is_white s = true.
Proof.
  induction s as [|c s IH]; simpl.
  - tauto.
  - destruct (is_white c); simpl.
    + exact IH.
    + split; discriminate.
Qed.

Lemma trimStart_head (s : jsstring) :
  match trimStart s with
  | [] => True
  | c :: _ => is_white c = false
  end.
Proof.
  induction s as [|c s IH]; simpl; auto.
  destruct (is_white c) eqn:E; auto.
Qed.

Lemma forallb_rev {A} (f : A -> bool) (l : list A) :
  forallb f (rev l) = forallb f l.
Proof.
  induction l as [|a l IH]; simpl; auto.
  rewrite forallb_app, IH. simpl. rewrite andb_true_r. apply andb_comm.
Qed.

(** Trimming leaves nothing exactly when the string is white space. *)
Lemma trim_nil_iff (s : jsstring) :
  trim s = [] <-> forallb is_white s = true.
Proof.
  unfold trim, trimEnd. split.
  - intros H.
    assert (H1 : trimStart (rev (trimStart s)) = []).
    { destruct (trimStart (rev (trimStart s))) as [|c l]; [reflexivity|].
      simpl in H. apply app_eq_nil in H. destruct H; discriminate. }
    apply trimStart_nil_iff in H1. rewrite forallb_rev in H1.
    pose proof (trimStart_head s) as Hh.
    destruct (trimStart s) as [|c r] eqn:E.
    + now apply trimStart_nil_iff.
    + simpl in H1. rewrite Hh in H1. discriminate.
  - intros H. apply trimStart_nil_iff in H. rewrite H. reflexivity.
Qed.

Lemma trim_blank (s : jsstring) :
  negb (str_eqb (trim s) []) = negb (forallb is_white s).
Proof.
  f_equal. destruct (forallb is_white s) eqn:E.
  - apply str_eqb_eq. now apply trim_nil_iff.
  - apply str_eqb_neq. intros H. apply trim_nil_iff in H. congruence.
Qed.

(** ** split and join *)

Lemma split_nonempty (sep : code_unit) (s : jsstring) : split sep s <> [].
Proof.
  destruct s as [|c s]; simpl; [discriminate|].
  destruct (c =? sep)%N; [discriminate|].
  destruct (split sep s); discriminate.
Qed.

(** Joining the pieces gives the string back. *)
Lemma join_split (sep : code_unit) (s : jsstring) : join sep (split sep s) = s.
Proof.
  induction s as [|c s IH]; simpl; auto.
  destruct (N.eqb_spec c sep) as [->|Hne].
  - pose proof (split_nonempty sep s) as Hn.
    simpl. destruct (split sep s) as [|p ps]; [congruence|].
    now rewrite IH.
  - pose proof (split_nonempty sep s) as Hn.
    destruct (split sep s) as [|p ps]; [congruence|].
    simpl in *. destruct ps; simpl; now rewrite <- IH.
Qed.

(** No piece holds the separator. *)
Lemma split_pieces (sep : code_unit) (s : jsstring) :
  Forall (fun piece => ~ In sep piece) (split sep s).
Proof.
  induction s as [|c s IH]; simpl.
  - constructor; auto.
  - destruct (N.eqb_spec c sep) as [->|Hne].
    + constructor; auto.
    + destruct (split sep s) as [|p ps]; [constructor; auto; simpl; intuition|].
      inversion IH; subst. constructor; auto. simpl. intuition.
Qed.

Lemma split_app_sep (sep : code_unit) (x rest : jsstring) :
  ~ In sep x -> split sep (x ++ sep :: rest) = x :: split sep rest.
Proof.
  induction x as [|c x IH]; simpl; intros Hx.
  - now rewrite N.eqb_refl.
  - destruct (N.eqb_spec c sep) as [->|Hne]; [tauto|].
    rewrite IH by tauto. reflexivity.
Qed.

Lemma split_single (sep : code_unit) (x : jsstring) :
  ~ In sep x -> split sep x = [x].
Proof.
  induction x as [|c x IH]; simpl; intros Hx; auto.
  destruct (N.eqb_spec c sep) as [->|Hne]; [tauto|].
  rewrite IH by tauto. reflexivity.
Qed.

(** Splitting a joined array gives the array back, when it is not empty
    and none of its strings holds the separator. *)
Lemma split_join (sep : code_unit) (arr : list jsstring) :
  arr <> [] -> Forall (fun piece => ~ In sep piece) arr ->
  split sep (join sep arr) = arr.
Proof.
  induction arr as [|x arr IH]; [congruence|].
  intros _ HF. inversion HF as [|? ? Hx HF']; subst.
  destruct arr as [|y arr].
  - simpl. now apply split_single.
  - change (join sep (x :: y :: arr)) with (x ++ sep :: join sep (y :: arr)).
    rewrite split_app_sep by assumption.
    rewrite IH; auto. discriminate.
Qed.


(** ** The runtime on samples *)

Example parseFloat_samples :
  map parseFloat
    [lit "1500.00"; lit "  -12.5e1"; lit ".5"; lit "5."; lit "12abc";
     lit "1,500.00"; lit "1e"; lit "abc"; lit ""; lit "."; lit "undefined";
     lit "-Infinity"]
  = [Finite false 150000 (-2); Finite true 125 0; Finite false 5 (-1);
     Finite false 5 0; Finite false 12 0; Finite false 1 0; Finite false 1 0;
     NaN; NaN; NaN; NaN; Infinity true].
Proof. reflexivity. Qed.

Example number_toString_samples :
  map number_toString
    [Finite false 1500 0; Finite true 150050 (-2); Finite false 5 (-1);
     Finite false 1 21; Finite false 1 (-7); Finite false 42 0; NaN]
  = [lit "1500"; lit "-1500.5"; lit "0.5"; lit "1e+21"; lit "1e-7"; lit "42";
     lit "NaN"].
Proof. reflexivity. Qed.

Example split_samples :
  split LF (lit "a" ++ [LF] ++ lit "b" ++ [LF]) = [lit "a"; lit "b"; []]
  /\ split LF [] = [[]]
  /\ join LF [lit "a"; lit "b"] = lit "a" ++ [LF] ++ lit "b"
  /\ trim (lit "  a b ") = lit "a b".
Proof. repeat split. Qed.

End JSFacts.

(* ===================================================================== *)
(** * AddProductModal: the submit handler *)
(* ===================================================================== *)

Module SubmitFacts.
Import AddProductModal JSFacts.

Ltac run_handler :=
  unfold handleAddProduct, handleClose, handleReset, setIsSubmitting,
    setIsUploading, setSelectedFile, setImagePreview, setNewProduct,
    try_catch_finally, bind, emit, get, modify, throw, ret;
  cbn [fst snd].

(** Without an image the handler stops at the validation message. *)
Lemma handleAddProduct_no_image base product server st :
  imageUrl (newProduct st) = [] ->
  handleAddProduct base product server st
  = (Returned tt, st,
     [PreventDefault; ToastError (lit "Please upload an image for the product")]).
Proof.
  intros H. run_handler. rewrite H. reflexivity.
Qed.

(** With an image the handler issues the one request and goes by the
    reply. *)
Lemma handleAddProduct_run base product server st :
  imageUrl (newProduct st) <> [] ->
  let req := request_for base product (newProduct st) in
  let editing := isEditing product in
  handleAddProduct base product server st
  = match server req with
    | FetchThrows error =>
        (Returned tt,
         {| isSubmitting := false; isUploading := isUploading st;
            selectedFile := selectedFile st; imagePreview := imagePreview st;
            newProduct := newProduct st |},
         [PreventDefault; Fetch req;
          ConsoleError (lit "Error saving product:") error;
          ToastError (lit "Failed to save product")])
    | FetchJson result =>
        if success result then
          (Returned tt, initialState,
           [PreventDefault; Fetch req;
            ToastSuccess
              (opt_or (message result)
                 (lit "Product " ++ (if editing then lit "updated" else lit "added")
                    ++ lit " successfully"));
            OnClose; OnSuccess])
        else
          (Returned tt,
           {| isSubmitting := false; isUploading := isUploading st;
              selectedFile := selectedFile st; imagePreview := imagePreview st;
              newProduct := newProduct st |},
           [PreventDefault; Fetch req;
            ToastError
              (opt_or (message result)
                 (lit "Failed to " ++ (if editing then lit "update" else lit "add")
                    ++ lit " product"))])
    end.
Proof.
  intros H req editing. subst req editing.
  apply str_truthy_nonempty in H.
  run_handler. rewrite H. cbn [negb].
  unfold request_for, isEditing.
  destruct product as [p|]; [destruct (truthy (Product.id p))|];
    match goal with
    | |- context [server ?r] => destruct (server r) as [error|result]
    end; try reflexivity;
    destruct (success result); reflexivity.
Qed.


Lemma requests_of_run base product server st :
  requests (effects_of (handleAddProduct base product server) st)
  = if str_truthy (imageUrl (newProduct st))
    then [request_for base product (newProduct st)]
    else [].
Proof.
  unfold effects_of.
  destruct (imageUrl (newProduct st)) as [|c u] eqn:E.
  - rewrite handleAddProduct_no_image by assumption. reflexivity.
  - rewrite handleAddProduct_run by (rewrite E; discriminate).
    destruct (server _) as [error|result]; [reflexivity|].
    destruct (success result); reflexivity.
Qed.

(** The workflow on a sample: a file is selected, uploaded, and the
    draft is saved; the form ends reset. *)
Example workflow_sample :
  let st1 := state_after (onChange (EditPrice (lit "1500.00")))
               (Samples.form emptyDraft) in
  let st2 := state_after (handleFileChange None [Samples.photo]) st1 in
  let st3 := state_after (handleUploadImage Samples.uploads) st2 in
  imageUrl (newProduct st2) = []
  /\ imagePreview st2 = Some (lit "data:image/png;base64,AAAA")
  /\ imageUrl (newProduct st3) = lit "https://res.cloudinary.com/demo/chair.png"
  /\ map (fun r => (method r, url r, ProductData.price (body r)))
       (requests (effects_of (handleAddProduct Samples.base None Samples.accepts) st3))
     = [(POST, lit "https://admin.example/api/products", Finite false 150000 (-2))]
  /\ state_after (handleAddProduct Samples.base None Samples.accepts) st3
     = initialState.
Proof. repeat split. Qed.

End SubmitFacts.

(* ===================================================================== *)
(** * The feature list *)
(* ===================================================================== *)

Module FeatureFacts.
Import AddProductModal JSFacts SpecWords.

Lemma lines_from_split (current text : jsstring) :
  lines_from current text
  = match split LF text with
    | piece :: pieces => (current ++ piece) :: pieces
    | [] => [current]
    end.
Proof.
  revert current. induction text as [|c text IH]; intros current; simpl.
  - now rewrite app_nil_r.
  - destruct (c =? LF)%N.
    + rewrite IH, app_nil_r. pose proof (split_nonempty LF text).
      destruct (split LF text); [congruence|reflexivity].
    + rewrite IH. destruct (split LF text); simpl; rewrite <- ?app_assoc; reflexivity.
Qed.

Lemma lines_split (text : jsstring) : lines text = split LF text.
Proof.
  unfold lines. rewrite lines_from_split.
  pose proof (split_nonempty LF text).
  destruct (split LF text); [congruence|reflexivity].
Qed.

(** The array the handler builds is the feature list of the text. *)
Lemma featuresArray_feature_list (d : Draft) :
  featuresArray d = feature_list (features d).
Proof.
  unfold featuresArray, feature_list. rewrite lines_split.
  destruct (features d) as [|c text] eqn:E.
  - reflexivity.
  - cbn [str_truthy]. apply filter_ext. intros line. apply trim_blank.
Qed.

Lemma feature_list_pieces (text : jsstring) :
  Forall (fun line => ~ In LF line /\ blank line = false) (feature_list text).
Proof.
  unfold feature_list. rewrite lines_split.
  pose proof (split_pieces LF text) as HF.
  induction HF as [|x l Hx HF IH]; simpl; [constructor|].
  destruct (blank x) eqn:E; simpl; auto.
Qed.

(** Joined and split again, a feature list is what it was. *)
Lemma feature_list_idempotent (text : jsstring) :
  feature_list (join LF (feature_list text)) = feature_list text.
Proof.
  pose proof (feature_list_pieces text) as HF.
  remember (feature_list text) as arr eqn:Harr. clear Harr.
  destruct arr as [|x arr]; [reflexivity|].
  unfold feature_list at 1. rewrite lines_split.
  rewrite split_join.
  - clear -HF. induction HF as [|y l [_ Hy] HF IH]; [reflexivity|].
    cbn [filter]. rewrite Hy. cbn [negb]. now rewrite IH.
  - discriminate.
  - eapply Forall_impl; [|exact HF]. cbn. tauto.
Qed.

End FeatureFacts.

(* ===================================================================== *)
(** * parseFloat on decimal strings *)
(* ===================================================================== *)

Module ParseFacts.
Import JSFacts SpecWords.






























End ParseFacts.

(* ===================================================================== *)
(** * NewsletterPage: the debounce *)
(* ===================================================================== *)

Module DebounceFacts.
Import NewsletterPage JSFacts.

(** What the callbacks of timeouts leave alone. *)
Lemma run_timers_frame (ripe : list Timer) :
  forall p : Page,
    now (fold_left run_timer ripe p) = now p
    /\ timers (fold_left run_timer ripe p) = timers p
    /\ fresh (fold_left run_timer ripe p) = fresh p
    /\ delayDebounceFn (fold_left run_timer ripe p) = delayDebounceFn p
    /\ searchQuery (view (fold_left run_timer ripe p)) = searchQuery (view p)
    /\ pagination (view (fold_left run_timer ripe p)) = pagination (view p)
    /\ emails (view (fold_left run_timer ripe p)) = emails (view p).
Proof.
  induction ripe as [|tm ripe IH]; intros p; [repeat split|].
  cbn [fold_left].
  destruct (IH (run_timer p tm)) as (H1 & H2 & H3 & H4 & H5 & H6 & H7).
  rewrite H1, H2, H3, H4, H5, H6, H7. repeat split.
Qed.

(** Time leaves the text and the pagination of the render alone. *)
Lemma advance_frame (t : N) (p : Page) :
  now (advance t p) = N.max (now p) t
  /\ fresh (advance t p) = fresh p
  /\ delayDebounceFn (advance t p) = delayDebounceFn p
  /\ searchQuery (view (advance t p)) = searchQuery (view p)
  /\ pagination (view (advance t p)) = pagination (view p)
  /\ emails (view (advance t p)) = emails (view p)
  /\ timers (advance t p)
     = filter (fun tm => negb (due tm <=? N.max (now p) t)%N) (timers p).
Proof.
  unfold advance.
  match goal with
  | |- context [fold_left run_timer ?l ?q] =>
      destruct (run_timers_frame l q) as (H1 & H2 & H3 & H4 & H5 & H6 & H7)
  end.
  rewrite H1, H2, H3, H4, H5, H6, H7. repeat split.
Qed.

Lemma filter_tidy (f : Timer -> bool) (l : list Timer) (held : option N) :
  (l = [] \/ exists tm, l = [tm] /\ held = Some (ident tm)) ->
  filter f l = []
  \/ exists tm, filter f l = [tm] /\ held = Some (ident tm).
Proof.
  intros [->|(tm & -> & H)]; [now left|].
  cbn [filter]. destruct (f tm); [right; exists tm; auto|now left].
Qed.

Lemma advance_tidy (t : N) (p : Page) : tidy p -> tidy (advance t p).
Proof.
  unfold tidy. intros H.
  destruct (advance_frame t p) as (_ & _ & Hd & _ & _ & _ & Ht).
  rewrite Ht, Hd. now apply filter_tidy.
Qed.

(** The cleanup touches the pending timeouts only, and on a tidy page
    it leaves none. *)
Lemma cleanup_frame (p : Page) :
  now (cleanup p) = now p /\ view (cleanup p) = view p
  /\ fresh (cleanup p) = fresh p /\ trace (cleanup p) = trace p.
Proof. unfold cleanup. destruct (delayDebounceFn p); repeat split. Qed.

Lemma cleanup_clears (p : Page) : tidy p -> timers (cleanup p) = [].
Proof.
  unfold cleanup. intros [Ht|(tm & Ht & Hd)].
  - destruct (delayDebounceFn p); cbn; now rewrite Ht.
  - rewrite Hd. cbn. rewrite Ht. cbn. now rewrite N.eqb_refl.
Qed.

(** [setTimeout] cancels nothing: what was pending stays pending. *)
Lemma enqueue_keeps (tm : Timer) (pending : list Timer) :
  forall x : Timer, In x (enqueue tm pending) <-> x = tm \/ In x pending.
Proof.
  induction pending as [|y pending IH]; intros x; cbn [enqueue].
  - cbn. intuition congruence.
  - destruct (due y <=? due tm)%N; cbn [In]; [rewrite IH|]; intuition congruence.
Qed.

Lemma schedule_keeps (p : Page) (tm : Timer) :
  In tm (timers p) -> In tm (timers (schedule p)).
Proof. intros H. cbn. apply enqueue_keeps. now right. Qed.

(** The cleanup at work: a keystroke 100ms after the mount clears the
    timeout of the first render, and one fetch follows; had the effect
    run again without its cleanup, the timeout of the first render
    would have fired as well. *)
Example cleanup_at_work :
  fetches (trace (advance 900 (handleSearchChange (lit "o") (advance 100 (mount 0)))))
  = [(600%N, {| page := 1; limit := 10; search := lit "o" |})]
  /\ fetches
       (trace (advance 900
                 (schedule (with_view (setSearchQuery (lit "o") initialState)
                              (advance 100 (mount 0))))))
     = [(500%N, {| page := 1; limit := 10; search := [] |});
        (600%N, {| page := 1; limit := 10; search := lit "o" |})].
Proof. split; reflexivity. Qed.

(** On a tidy page a keystroke with a new text leaves one timeout
    pending, its own: the cleanup has cleared the one before. *)
Lemma keystroke_arms (p : Page) (v : jsstring) :
  tidy p ->
  str_eqb v (searchQuery (view p)) = false ->
  armed (now p) v (handleSearchChange v p)
  /\ trace (handleSearchChange v p) = trace p
  /\ pagination (view (handleSearchChange v p)) = pagination (view p).
Proof.
  intros Ht H. unfold handleSearchChange. rewrite H.
  set (q := with_view (setSearchQuery v (view p)) p).
  assert (Hq : tidy q) by exact Ht.
  destruct (cleanup_frame q) as (Hn & Hv & Hf & Htr).
  pose proof (cleanup_clears q Hq) as Hc.
  unfold armed, schedule, setTimeout.
  cbn [now view timers fresh delayDebounceFn trace].
  rewrite Hn, Hv, Hf, Htr, Hc. cbn [enqueue].
  split; [|split; reflexivity].
  split; [reflexivity|]. split; [reflexivity|].
  exists (fresh p). split; reflexivity.
Qed.

Lemma armed_tidy (t : N) (v : jsstring) (p : Page) : armed t v p -> tidy p.
Proof.
  intros (_ & _ & id & Ht & Hd). right. eexists. split; [exact Ht|exact Hd].
Qed.

Lemma handleSearchChange_tidy (v : jsstring) (p : Page) :
  tidy p -> tidy (handleSearchChange v p).
Proof.
  intros Ht. destruct (str_eqb v (searchQuery (view p))) eqn:E.
  - unfold handleSearchChange. now rewrite E.
  - destruct (keystroke_arms p v Ht E) as (Ha & _). eapply armed_tidy, Ha.
Qed.

Lemma step_tidy (p : Page) (e : Event) : tidy p -> tidy (step p e).
Proof.
  intros H. destruct e as [t v|t pg|t r|t]; cbn [step];
    apply (advance_tidy t) in H.
  - now apply handleSearchChange_tidy.
  - exact H.
  - destruct r as [err|[|] data [pg|] msg]; exact H.
  - exact H.
Qed.

Lemma mount_tidy (t0 : N) : tidy (mount t0).
Proof. right. eexists. split; reflexivity. Qed.

Lemma run_tidy (events : list Event) :
  forall p : Page, tidy p -> tidy (run p events).
Proof.
  induction events as [|e events IH]; intros p H; [exact H|].
  cbn [run fold_left]. apply IH. now apply step_tidy.
Qed.

(** Before its timeout is due, time only moves the clock of an armed
    page. *)
Lemma advance_armed (t0 : N) (v : jsstring) (p : Page) (t : N) :
  armed t0 v p -> (t0 <= t)%N -> (t < t0 + delay)%N ->
  advance t p = {| now := t; view := view p; timers := timers p;
                   fresh := fresh p; delayDebounceFn := delayDebounceFn p;
                   trace := trace p |}.
Proof.
  intros (Hn & _ & id & Ht & _) H1 H2. unfold advance. rewrite Ht, Hn.
  cbn [filter due].
  rewrite N.max_r by assumption.
  now rewrite (proj2 (N.leb_gt (t0 + delay) t)) by assumption.
Qed.

Lemma last_cons_default {A} (l : list A) :
  forall x d : A, last (x :: l) d = last l x.
Proof.
  induction l as [|y l IH]; intros x d; [reflexivity|].
  change (last (x :: y :: l) d) with (last (y :: l) d).
  now rewrite !IH.
Qed.

Lemma run_cons (p : Page) (e : Event) (events : list Event) :
  run p (e :: events) = run (step p e) events.
Proof. reflexivity. Qed.

Lemma run_app (p : Page) (first second : list Event) :
  run p (first ++ second) = run (run p first) second.
Proof. unfold run. apply fold_left_app. Qed.

(** Through a burst of keystrokes nothing is fetched, and the page ends
    armed by the last of them. *)
Lemma burst_run (keys : list (N * jsstring)) :
  forall (p : Page) (t : N) (v : jsstring),
    armed t v p -> burst t v keys = true ->
    let p' := run p (map (fun k => Input (fst k) (snd k)) keys) in
    armed (fst (last keys (t, v))) (snd (last keys (t, v))) p'
    /\ trace p' = trace p
    /\ pagination (view p') = pagination (view p).
Proof.
  induction keys as [|[t' v'] keys IH]; intros p t v Harm Hb.
  - cbn. auto.
  - cbn [burst] in Hb.
    apply andb_prop in Hb. destruct Hb as [Hb Hrest].
    apply andb_prop in Hb. destruct Hb as [Hb Hnew].
    apply andb_prop in Hb. destruct Hb as [Hle Hlt].
    apply N.leb_le in Hle. apply N.ltb_lt in Hlt.
    apply negb_true_iff in Hnew.
    pose proof (advance_armed t v p t' Harm Hle Hlt) as Hadv.
    assert (Hq : searchQuery (view (advance t' p)) = v)
      by (rewrite Hadv; cbn; apply Harm).
    assert (Htidy : tidy (advance t' p))
      by (apply advance_tidy; eapply armed_tidy, Harm).
    destruct (keystroke_arms (advance t' p) v' Htidy) as (Ha & Htr & Hpg).
    { now rewrite Hq. }
    assert (Hnow : now (advance t' p) = t') by (rewrite Hadv; reflexivity).
    rewrite Hnow in Ha.
    specialize (IH _ _ _ Ha Hrest).
    cbn [map run fold_left step fst snd].
    change (fold_left step ?l ?q) with (run q l).
    rewrite last_cons_default.
    destruct IH as (IH1 & IH2 & IH3). split; [exact IH1|]. split.
    + rewrite IH2, Htr, Hadv. reflexivity.
    + rewrite IH3, Hpg, Hadv. reflexivity.
Qed.

(** Once the delay has run out, an armed page fetches, once, and no
    timeout is left. *)
Lemma armed_fires (t : N) (v : jsstring) (p : Page) (T : N) :
  armed t v p -> (t + delay <= T)%N ->
  trace (advance T p)
  = trace p ++ [Fetch (t + delay)
                  {| page := 1; limit := itemsPerPage (pagination (view p));
                     search := v |}]
  /\ timers (advance T p) = [].
Proof.
  intros (Hn & Hq & id & Ht & _) HT. unfold advance. rewrite Ht.
  cbn [filter due].
  assert (Hmax : (t + delay <=? N.max (now p) T)%N = true)
    by (apply N.leb_le; lia).
  rewrite Hmax. cbn. now rewrite Hq.
Qed.

End DebounceFacts.

(* ===================================================================== *)
(** * The properties of the specification *)
(* ===================================================================== *)

Import AddProductModal JSFacts SubmitFacts.

(** C1. Submitting a draft whose [imageUrl] is the empty string issues
    no request (neither POST nor PUT), shows the validation message, and
    leaves the draft and the rest of the state of the form as they
    were. *)
Theorem submit_without_image
    (base : jsval) (product : option Product.t)
    (server : Request -> FetchOutcome) (st : State) :
  imageUrl (newProduct st) = [] ->
  requests (effects_of (handleAddProduct base product server) st) = []
  /\ toasts (effects_of (handleAddProduct base product server) st)
     = [ToastError (lit "Please upload an image for the product")]
  /\ state_after (handleAddProduct base product server) st = st.
Proof.
  intros H. unfold effects_of, state_after.
  rewrite handleAddProduct_no_image by assumption.
  repeat split.
Qed.

Lemma submit_without_image_witness :
  requests (effects_of (handleAddProduct Samples.base None Samples.accepts)
              (Samples.form emptyDraft)) = []
  /\ toasts (effects_of (handleAddProduct Samples.base None Samples.accepts)
               (Samples.form emptyDraft))
     = [ToastError (lit "Please upload an image for the product")]
  /\ state_after (handleAddProduct Samples.base None Samples.accepts)
       (Samples.form emptyDraft) = Samples.form emptyDraft.
Proof.
  apply (submit_without_image Samples.base None Samples.accepts
           (Samples.form emptyDraft)).
  reflexivity.
Defined.

(** C2. The feature list submit sends is the features text split on
    line breaks with the blank (white-space only) lines removed, in the
    order of the text; and the conversion is idempotent: the list joined
    with line breaks converts to the same list. *)
Theorem features_conversion
    (base : jsval) (product : option Product.t)
    (server : Request -> FetchOutcome) (st : State) :
  let d := newProduct st in
  map (fun r => ProductData.features (body r))
    (requests (effects_of (handleAddProduct base product server) st))
  = (if str_truthy (imageUrl d) then [SpecWords.feature_list (features d)] else [])
  /\ featuresArray d = SpecWords.feature_list (features d)
  /\ featuresArray (with_features (join LF (featuresArray d)) d) = featuresArray d.
Proof.
  intros d. subst d. rewrite requests_of_run.
  split; [|split].
  - destruct (str_truthy (imageUrl (newProduct st))); [|reflexivity].
    cbn. now rewrite FeatureFacts.featuresArray_feature_list.
  - apply FeatureFacts.featuresArray_feature_list.
  - rewrite !FeatureFacts.featuresArray_feature_list. cbn [features with_features].
    apply FeatureFacts.feature_list_idempotent.
Qed.




(** C4, as amended. Once the provider has answered, the promise of
    [uploadToCloudinary] is rejected in exactly two cases: with the
    error of the provider when it reports one, and, when it reports no
    error and hands over no result, with the message
    "Cloudinary upload failed: No result returned". In every other case
    the promise resolves with the result of the provider. *)
Theorem upload_settles
    (provider : Cloudinary.UploadOptions -> list N ->
                option (option Cloudinary.Error
                        * option Cloudinary.CloudinaryUploadResult))
    (fileBuffer : list N) (folder : option jsstring)
    (error : option Cloudinary.Error)
    (result : option Cloudinary.CloudinaryUploadResult) :
  provider {| Cloudinary.folder :=
                match folder with Some f => f | None => lit "products" end;
              Cloudinary.resource_type := lit "auto" |} fileBuffer
  = Some (error, result) ->
  let promise := Cloudinary.uploadToCloudinary provider fileBuffer folder in
  (forall reason,
      promise = Cloudinary.Rejected reason
      <-> error = Some reason
          \/ (error = None /\ result = None
              /\ reason = Cloudinary.mkError
                            (lit "Cloudinary upload failed: No result returned")))
  /\ (forall value,
         promise = Cloudinary.Resolved value
         <-> error = None /\ result = Some value)
  /\ promise <> Cloudinary.Pending.
Proof.
  intros H promise. subst promise.
  unfold Cloudinary.uploadToCloudinary. rewrite H. unfold Cloudinary.callback.
  destruct error as [e|]; [|destruct result as [r|]].
  - split; [|split]; [intros reason|intros value|discriminate]; split.
    + intros E. left. congruence.
    + intros [E|(E & _)]; congruence.
    + discriminate.
    + intros [E _]. discriminate.
  - split; [|split]; [intros reason|intros value|discriminate]; split.
    + discriminate.
    + intros [E|(_ & E & _)]; discriminate.
    + intros E. split; congruence.
    + intros [_ E]. congruence.
  - split; [|split]; [intros reason|intros value|discriminate]; split.
    + intros E. right. repeat split. congruence.
    + intros [E|(_ & _ & E)]; [discriminate|congruence].
    + discriminate.
    + intros [_ E]. discriminate.
Qed.

Lemma upload_settles_witness :
  Cloudinary.uploadToCloudinary Samples.hosts [137; 80; 78; 71]%N None
  = Cloudinary.Resolved Samples.hosted.
Proof.
  apply (upload_settles Samples.hosts [137; 80; 78; 71]%N None
           None (Some Samples.hosted)).
  - reflexivity.
  - split; reflexivity.
Defined.

(** C4, as stated, fails on the message: with neither error nor result
    the promise is rejected, but not with "upload failed: no result
    returned". *)
Lemma upload_no_result_message :
  Cloudinary.uploadToCloudinary Samples.silent [137; 80; 78; 71]%N None
  = Cloudinary.Rejected
      (Cloudinary.mkError (lit "Cloudinary upload failed: No result returned"))
  /\ Cloudinary.uploadToCloudinary Samples.silent [137; 80; 78; 71]%N None
     <> Cloudinary.Rejected
          (Cloudinary.mkError (lit "upload failed: no result returned")).
Proof.
  split; [reflexivity|discriminate].
Qed.

(** C5, as amended. A submit that gets past the image check issues one
    request. With a product whose identifier is truthy (a number other
    than 0, a non-empty string; 42, say) it is a PUT on
    /api/products/{id}; with no product, or a product whose identifier
    is absent or falsy, it is a POST on /api/products. *)
Theorem submit_method
    (base : jsval) (product : option Product.t)
    (server : Request -> FetchOutcome) (st : State) :
  imageUrl (newProduct st) <> [] ->
  exists req,
    requests (effects_of (handleAddProduct base product server) st) = [req]
    /\ (forall p, product = Some p -> truthy (Product.id p) = true ->
          method req = PUT
          /\ url req = ToString base ++ lit "/api/products/"
                       ++ ToString (Product.id p))
    /\ (product = None
        \/ (exists p, product = Some p /\ truthy (Product.id p) = false) ->
          method req = POST
          /\ url req = ToString base ++ lit "/api/products").
Proof.
  intros H. exists (request_for base product (newProduct st)).
  rewrite requests_of_run.
  apply str_truthy_nonempty in H. rewrite H.
  split; [reflexivity|]. unfold request_for, isEditing. cbn [method url].
  split.
  - intros p -> Hid. rewrite Hid. auto.
  - intros [->|(p & -> & Hid)]; [|rewrite Hid]; auto.
Qed.

Lemma submit_method_witness :
  map (fun r => (method r, url r))
    (requests (effects_of (handleAddProduct Samples.base
                             (Some (Samples.stored (VNum (of_N 42))))
                             Samples.accepts)
                 (Samples.form Samples.chair)))
  = [(PUT, lit "https://admin.example/api/products/42")].
Proof.
  destruct (submit_method Samples.base (Some (Samples.stored (VNum (of_N 42))))
              Samples.accepts (Samples.form Samples.chair))
    as (req & Hreq & Hput & _).
  - discriminate.
  - rewrite Hreq. cbn [map].
    destruct (Hput _ eq_refl eq_refl) as [Hm Hu]. rewrite Hm, Hu.
    reflexivity.
Defined.

(** C5, as stated, fails: a product that carries the identifier 0 is
    saved with a POST on /api/products. *)
Lemma edit_identifier_zero_posts :
  Product.id (Samples.stored (VNum zero)) = VNum zero
  /\ map (fun r => (method r, url r))
       (requests (effects_of (handleAddProduct Samples.base
                                (Some (Samples.stored (VNum zero)))
                                Samples.accepts)
                    (Samples.form Samples.chair)))
     = [(POST, lit "https://admin.example/api/products")].
Proof.
  split; reflexivity.
Qed.

(** C6. When the server answers a save with [success: false] and a
    message X, the notification shows X, and shows the generic message
    only when there is no message (none, or an empty one); the draft, and
    with it every field of it, is what it was before the submit, and so
    are the selected file, the preview and the upload flag. *)
Theorem save_failure
    (base : jsval) (product : option Product.t)
    (server : Request -> FetchOutcome) (st : State) (msg : option jsstring) :
  imageUrl (newProduct st) <> [] ->
  (forall req, server req = FetchJson {| success := false; message := msg |}) ->
  let run := handleAddProduct base product server in
  let generic :=
    lit "Failed to " ++ (if isEditing product then lit "update" else lit "add")
      ++ lit " product" in
  (forall X, msg = Some X -> X <> [] ->
     toasts (effects_of run st) = [ToastError X])
  /\ (msg = None \/ msg = Some [] ->
      toasts (effects_of run st) = [ToastError generic])
  /\ newProduct (state_after run st) = newProduct st
  /\ selectedFile (state_after run st) = selectedFile st
  /\ imagePreview (state_after run st) = imagePreview st
  /\ isUploading (state_after run st) = isUploading st.
Proof.
  intros H Hs run generic. subst run generic.
  unfold effects_of, state_after.
  rewrite handleAddProduct_run by assumption. rewrite Hs.
  cbn [success message fst snd toasts filter is_toast newProduct selectedFile
       imagePreview isUploading].
  repeat split.
  - intros X -> HX. cbn [opt_or]. now rewrite str_or_truthy.
  - intros [->| ->]; reflexivity.
Qed.

Lemma save_failure_witness :
  toasts (effects_of (handleAddProduct Samples.base None
                        (Samples.refuses (Some (lit "Name already taken"))))
            (Samples.form Samples.chair))
  = [ToastError (lit "Name already taken")]
  /\ newProduct (state_after (handleAddProduct Samples.base None
                                (Samples.refuses (Some (lit "Name already taken"))))
                   (Samples.form Samples.chair))
     = Samples.chair.
Proof.
  destruct (save_failure Samples.base None
              (Samples.refuses (Some (lit "Name already taken")))
              (Samples.form Samples.chair) (Some (lit "Name already taken")))
    as (Hshown & _ & Hdraft & _).
  - discriminate.
  - reflexivity.
  - split; [apply (Hshown _ eq_refl); discriminate|exact Hdraft].
Defined.

(** C7. In create mode (no product given) selecting a file sets the
    [imageUrl] of the draft to the empty string, whatever it was; in
    edit mode selecting a file leaves the [imageUrl] as it is. Neither
    touches another field of the draft. *)
Theorem file_selection (file : File) (files : list File) (st : State) :
  newProduct (state_after (handleFileChange None (file :: files)) st)
  = with_imageUrl [] (newProduct st)
  /\ imageUrl (newProduct (state_after (handleFileChange None (file :: files)) st))
     = []
  /\ forall p,
       newProduct (state_after (handleFileChange (Some p) (file :: files)) st)
       = newProduct st.
Proof.
  repeat split.
Qed.

(** C8. A change of the category sets the category and, in the same
    update, resets the sub-category to the empty string, whatever both
    were; and no edit of the form leaves a stale sub-category behind: if
    the sub-category is empty or one the dropdown offers for the category
    before an edit, so it is after. *)
Theorem category_change
    (PRODUCT_SUB_CATEGORIES : jsstring -> option (list jsstring))
    (st : State) (val : jsstring) (e : Edit) :
  (let d := newProduct (state_after (onChange (EditCategory val)) st) in
   category d = val /\ subCategory d = []
   /\ d = with_category val (newProduct st))
  /\ (offered PRODUCT_SUB_CATEGORIES (newProduct st) e ->
      subCategory_fits PRODUCT_SUB_CATEGORIES (newProduct st) ->
      subCategory_fits PRODUCT_SUB_CATEGORIES
        (newProduct (state_after (onChange e) st))).
Proof.
  split; [repeat split|].
  intros Hoff Hfit.
  destruct e; cbn in *; try exact Hfit.
  - left. reflexivity.
  - right. exact Hoff.
Qed.

Lemma category_change_witness :
  subCategory_fits Samples.table
    (newProduct (state_after (onChange (EditSubCategory (lit "tables")))
                   (Samples.form Samples.chair))).
Proof.
  apply (category_change Samples.table (Samples.form Samples.chair) []
           (EditSubCategory (lit "tables"))).
  - vm_compute. right. left. reflexivity.
  - right. vm_compute. left. reflexivity.
Defined.

(** C9. On the newsletter page, however it got to where it is since it
    mounted, a run of keystrokes in the search box, each changing the
    text and each less than 500ms after the one before, issues no fetch
    while it lasts; once 500ms have passed after the last keystroke,
    exactly one fetch has been issued, at that time, for page 1 and with
    the search parameter equal to the text the last keystroke left, and
    no timeout is pending any more: the cleanup of the effect has
    cleared the timeout of every keystroke but the last. *)
Theorem debounce
    (t0 : N) (history : list NewsletterPage.Event)
    (t1 : N) (v1 : jsstring) (keys : list (N * jsstring)) (T : N) :
  let p := NewsletterPage.run (NewsletterPage.mount t0) history in
  let typed :=
    map (fun k => NewsletterPage.Input (fst k) (snd k)) ((t1, v1) :: keys) in
  let tn := fst (last keys (t1, v1)) in
  let vn := snd (last keys (t1, v1)) in
  (NewsletterPage.now p <= t1)%N ->
  str_eqb v1 (NewsletterPage.searchQuery (NewsletterPage.view p)) = false ->
  NewsletterPage.burst t1 v1 keys = true ->
  (tn + NewsletterPage.delay <= T)%N ->
  NewsletterPage.trace (NewsletterPage.run p typed)
  = NewsletterPage.trace (NewsletterPage.advance t1 p)
  /\ NewsletterPage.trace
       (NewsletterPage.run p (typed ++ [NewsletterPage.Wait T]))
     = NewsletterPage.trace (NewsletterPage.advance t1 p)
       ++ [NewsletterPage.Fetch (tn + 500)
             {| NewsletterPage.page := 1;
                NewsletterPage.limit :=
                  NewsletterPage.itemsPerPage
                    (NewsletterPage.pagination (NewsletterPage.view p));
                NewsletterPage.search := vn |}]
  /\ NewsletterPage.timers
       (NewsletterPage.run p (typed ++ [NewsletterPage.Wait T])) = [].
Proof.
  intros p typed tn vn Hnow Hnew Hburst HT. subst typed tn vn.
  assert (Htidy : NewsletterPage.tidy p)
    by (apply DebounceFacts.run_tidy, DebounceFacts.mount_tidy).
  clearbody p.
  set (p0 := NewsletterPage.advance t1 p).
  destruct (DebounceFacts.advance_frame t1 p)
    as (Ht & _ & _ & Hq & Hpg & _ & _).
  fold p0 in Ht, Hq, Hpg.
  rewrite N.max_r in Ht by assumption.
  destruct (DebounceFacts.keystroke_arms p0 v1) as (Harm & Htr & Hpg1).
  { now apply DebounceFacts.advance_tidy. }
  { now rewrite Hq. }
  rewrite Ht in Harm.
  pose proof (DebounceFacts.burst_run keys _ _ _ Harm Hburst) as Hrun.
  cbv zeta in Hrun. destruct Hrun as (Harmed & Htrace & Hpgn).
  cbn [map fst snd].
  rewrite DebounceFacts.run_app, !DebounceFacts.run_cons.
  cbn [NewsletterPage.step NewsletterPage.run fold_left]. fold p0.
  change (fold_left NewsletterPage.step ?l ?q) with (NewsletterPage.run q l).
  destruct (DebounceFacts.armed_fires _ _ _ T Harmed HT) as [Hfire Hspent].
  split; [|split].
  - now rewrite Htrace, Htr.
  - rewrite Hfire, Htrace, Htr, Hpgn, Hpg1, Hpg. reflexivity.
  - exact Hspent.
Qed.

Lemma debounce_witness :
  NewsletterPage.trace
    (NewsletterPage.run (NewsletterPage.mount 0)
       [NewsletterPage.Input 100 (lit "o");
        NewsletterPage.Input 250 (lit "oa");
        NewsletterPage.Input 400 (lit "oak");
        NewsletterPage.Wait 900])
  = [NewsletterPage.Fetch 900
       {| NewsletterPage.page := 1; NewsletterPage.limit := 10;
          NewsletterPage.search := lit "oak" |}].
Proof.
  apply (debounce 0 [] 100 (lit "o")
           [(250%N, lit "oa"); (400%N, lit "oak")] 900).
  - vm_compute. discriminate.
  - reflexivity.
  - reflexivity.
  - vm_compute. discriminate.
Defined.

(** C10. Opened on a product whose [price] (or [originalPrice]) is
    absent, the form holds the text "undefined" in that field, not the
    empty string, and a submit that follows sends 0 for it. *)
Theorem edit_without_price
    (base : jsval) (p : Product.t) (server : Request -> FetchOutcome)
    (st : State) :
  let opened := state_after (populate (Some p)) st in
  let sent := requests (effects_of (handleAddProduct base (Some p) server) opened) in
  (Product.price p = VUndefined ->
     price (newProduct opened) = lit "undefined"
     /\ price (newProduct opened) <> []
     /\ map (fun r => ProductData.price (body r)) sent
        = if opt_truthy (Product.imageUrl p) then [zero] else [])
  /\ (Product.originalPrice p = VUndefined ->
        originalPrice (newProduct opened) = lit "undefined"
        /\ originalPrice (newProduct opened) <> []
        /\ map (fun r => ProductData.originalPrice (body r)) sent
           = if opt_truthy (Product.imageUrl p) then [zero] else []).
Proof.
  intros opened sent. subst sent. rewrite requests_of_run.
  assert (Himg : str_truthy (imageUrl (newProduct opened))
                 = opt_truthy (Product.imageUrl p)).
  { subst opened. unfold state_after, populate, bind, setNewProduct, modify.
    cbn [fst snd]. destruct (Product.imageUrl p) as [[|c u]|]; reflexivity. }
  assert (Hprice : price (newProduct opened) = str_or (ToString (Product.price p)) []).
  { subst opened. unfold state_after, populate, bind, setNewProduct, modify.
    cbn [fst snd]. destruct (opt_truthy (Product.imageUrl p)); reflexivity. }
  assert (Horig : originalPrice (newProduct opened)
                  = str_or (ToString (Product.originalPrice p)) []).
  { subst opened. unfold state_after, populate, bind, setNewProduct, modify.
    cbn [fst snd]. destruct (opt_truthy (Product.imageUrl p)); reflexivity. }
  rewrite Himg. split; intros E.
  - rewrite Hprice, E. repeat split; [discriminate|].
    destruct (opt_truthy (Product.imageUrl p)); [|reflexivity].
    cbn [map request_for body productData ProductData.price].
    rewrite Hprice, E. reflexivity.
  - rewrite Horig, E. repeat split; [discriminate|].
    destruct (opt_truthy (Product.imageUrl p)); [|reflexivity].
    cbn [map request_for body productData ProductData.originalPrice].
    rewrite Horig, E. reflexivity.
Qed.

Lemma edit_without_price_witness :
  price (newProduct (state_after (populate (Some Samples.unpriced)) initialState))
  = lit "undefined"
  /\ map (fun r => ProductData.price (body r))
       (requests (effects_of
                    (handleAddProduct Samples.base (Some Samples.unpriced)
                       Samples.accepts)
                    (state_after (populate (Some Samples.unpriced)) initialState)))
     = [zero].
Proof.
  destruct (edit_without_price Samples.base Samples.unpriced Samples.accepts
              initialState) as [Hprice _].
  destruct (Hprice eq_refl) as (H1 & _ & H2).
  split; [exact H1|exact H2].
Defined.

(* ===================================================================== *)
(** * AddProductModal: the rest of the workflow *)
(* ===================================================================== *)

Module UploadFacts.
Import AddProductModal ModalView JSFacts.

Ltac run_upload :=
  unfold handleUploadImage, setIsUploading, setNewProduct,
    try_catch_finally, bind, emit, get, modify, throw, ret;
  cbn [fst snd].

Lemma handleUploadImage_no_file action st :
  selectedFile st = None ->
  handleUploadImage action st
  = (Returned tt, st, [ToastError (lit "Please select an image first")]).
Proof.
  intros H. destruct st as [submitting uploading selected shown draft].
  cbn [selectedFile] in H. subst selected. reflexivity.
Qed.

(** With a file the handler calls the action once and goes by what it
    gets. *)
Lemma handleUploadImage_run action st file :
  selectedFile st = Some file ->
  let formData :=
    {| formFile := file;
       formCategory := str_or (category (newProduct st)) (lit "products") |} in
  handleUploadImage action st
  = match upload_ok (action formData) with
    | Some url =>
        (Returned tt,
         {| isSubmitting := isSubmitting st; isUploading := false;
            selectedFile := selectedFile st; imagePreview := imagePreview st;
            newProduct := with_imageUrl url (newProduct st) |},
         [UploadImageAction formData;
          ToastSuccess (lit "Image uploaded successfully")])
    | None =>
        (Returned tt,
         {| isSubmitting := isSubmitting st; isUploading := false;
            selectedFile := selectedFile st; imagePreview := imagePreview st;
            newProduct := newProduct st |},
         [UploadImageAction formData;
          ConsoleError (lit "Error uploading image:")
            (upload_error (action formData));
          ToastError (lit "Failed to upload image")])
    end.
Proof.
  intros H formData. subst formData.
  destruct st as [submitting uploading selected shown draft].
  cbn [selectedFile] in H. subst selected. run_upload.
  cbn [selectedFile newProduct isSubmitting imagePreview].
  match goal with
  | |- context [action ?fd] => destruct (action fd) as [error|r]
  end; cbn [upload_ok upload_error]; [reflexivity|].
  destruct (uploadSuccess r); cbn [andb]; [|reflexivity].
  destruct (uploadUrl r) as [[|c u]|]; reflexivity.
Qed.

End UploadFacts.

(* ===================================================================== *)
(** * Further properties of the code *)
(* ===================================================================== *)

Import AddProductModal ModalView JSFacts SubmitFacts UploadFacts.

(** X1. When the server answers a save with [success: true], the
    notification shows the message of the server, or "Product added
    successfully" / "Product updated successfully" by mode when there is
    none; the whole form is back in its initial state; and the parent is
    told to close, then to refresh, in that order. *)
Theorem save_success
    (base : jsval) (product : option Product.t)
    (server : Request -> FetchOutcome) (st : State) (msg : option jsstring) :
  imageUrl (newProduct st) <> [] ->
  (forall req, server req = FetchJson {| success := true; message := msg |}) ->
  let run := handleAddProduct base product server in
  state_after run st = initialState
  /\ toasts (effects_of run st)
     = [ToastSuccess
          (opt_or msg
             (lit "Product " ++ (if isEditing product then lit "updated" else lit "added")
                ++ lit " successfully"))]
  /\ callbacks (effects_of run st) = [OnClose; OnSuccess].
Proof.
  intros H Hs run. subst run. unfold effects_of, state_after.
  rewrite handleAddProduct_run by assumption. rewrite Hs.
  repeat split.
Qed.

Lemma save_success_witness :
  state_after (handleAddProduct Samples.base None Samples.accepts)
    (Samples.form Samples.chair) = initialState
  /\ toasts (effects_of (handleAddProduct Samples.base None Samples.accepts)
               (Samples.form Samples.chair))
     = [ToastSuccess (lit "Product added successfully")].
Proof.
  destruct (save_success Samples.base None Samples.accepts
              (Samples.form Samples.chair) None) as (Hst & Htoast & _).
  - discriminate.
  - reflexivity.
  - split; [exact Hst|exact Htoast].
Defined.

(** X2. When the request fails in transit ([fetch] or [response.json()]
    throws), the error is logged, the notification is the fixed "Failed
    to save product", the parent is told nothing, and the draft, the
    selected file and the preview are what they were. *)
Theorem save_transport_error
    (base : jsval) (product : option Product.t)
    (server : Request -> FetchOutcome) (st : State) (error : jsstring) :
  imageUrl (newProduct st) <> [] ->
  (forall req, server req = FetchThrows error) ->
  let run := handleAddProduct base product server in
  toasts (effects_of run st) = [ToastError (lit "Failed to save product")]
  /\ In (ConsoleError (lit "Error saving product:") error) (effects_of run st)
  /\ callbacks (effects_of run st) = []
  /\ newProduct (state_after run st) = newProduct st
  /\ selectedFile (state_after run st) = selectedFile st
  /\ imagePreview (state_after run st) = imagePreview st.
Proof.
  intros H Hs run. subst run. unfold effects_of, state_after.
  rewrite handleAddProduct_run by assumption. rewrite Hs.
  cbn [fst snd]. repeat split. right. right. left. reflexivity.
Qed.

Lemma save_transport_error_witness :
  toasts (effects_of (handleAddProduct Samples.base None MoreSamples.unreachable)
            (Samples.form Samples.chair))
  = [ToastError (lit "Failed to save product")]
  /\ newProduct (state_after
                   (handleAddProduct Samples.base None MoreSamples.unreachable)
                   (Samples.form Samples.chair))
     = Samples.chair.
Proof.
  destruct (save_transport_error Samples.base None MoreSamples.unreachable
              (Samples.form Samples.chair) (lit "TypeError: Failed to fetch"))
    as (Htoast & _ & _ & Hdraft & _).
  - discriminate.
  - reflexivity.
  - split; [exact Htoast|exact Hdraft].
Defined.

(** X3. Whatever the state, the props and the server do, a submit
    returns without throwing, issues at most one request, leaves
    [isSubmitting] false once it got past the image check, and tells
    the parent to refresh exactly when a request was issued and the
    server answered it with success. *)
Theorem submit_settles
    (base : jsval) (product : option Product.t)
    (server : Request -> FetchOutcome) (st : State) :
  let run := handleAddProduct base product server in
  outcome_of run st = Returned tt
  /\ (List.length (requests (effects_of run st)) <= 1)%nat
  /\ isSubmitting (state_after run st)
     = (if str_truthy (imageUrl (newProduct st)) then false else isSubmitting st)
  /\ (In OnSuccess (effects_of run st)
      <-> str_truthy (imageUrl (newProduct st)) = true
          /\ exists result,
               server (request_for base product (newProduct st)) = FetchJson result
               /\ success result = true).
Proof.
  intros run. subst run. unfold outcome_of, effects_of, state_after.
  destruct (imageUrl (newProduct st)) as [|c u] eqn:E.
  - rewrite handleAddProduct_no_image by assumption. cbn.
    split; [reflexivity|]. split; [lia|]. split; [reflexivity|]. split.
    + intros [H|[H|[]]]; discriminate.
    + intros [H _]. discriminate.
  - rewrite handleAddProduct_run by (rewrite E; discriminate).
    destruct (server (request_for base product (newProduct st)))
      as [error|result] eqn:Es; [|destruct (success result) eqn:Hok]; cbn;
      (split; [reflexivity|]); (split; [lia|]); (split; [reflexivity|]); split.
    + intros H. repeat (destruct H as [H|H]; try discriminate). destruct H.
    + intros [_ (r & Hr & _)]. discriminate.
    + intros _. split; [reflexivity|]. exists result. auto.
    + intros _. do 4 right. left. reflexivity.
    + intros H. repeat (destruct H as [H|H]; try discriminate). destruct H.
    + intros [_ (r & Hr & Hr')]. congruence.
Qed.

(** X4. Without a selected file, "Upload Image" calls no upload action,
    shows "Please select an image first" and changes nothing. *)
Theorem upload_without_file
    (action : FormData -> UploadOutcome) (st : State) :
  selectedFile st = None ->
  uploads_of (effects_of (handleUploadImage action) st) = []
  /\ toasts (effects_of (handleUploadImage action) st)
     = [ToastError (lit "Please select an image first")]
  /\ state_after (handleUploadImage action) st = st.
Proof.
  intros H. unfold effects_of, state_after.
  rewrite handleUploadImage_no_file by assumption. repeat split.
Qed.

Lemma upload_without_file_witness :
  uploads_of (effects_of (handleUploadImage Samples.uploads)
                (Samples.form Samples.chair)) = []
  /\ toasts (effects_of (handleUploadImage Samples.uploads)
               (Samples.form Samples.chair))
     = [ToastError (lit "Please select an image first")]
  /\ state_after (handleUploadImage Samples.uploads) (Samples.form Samples.chair)
     = Samples.form Samples.chair.
Proof.
  apply (upload_without_file Samples.uploads (Samples.form Samples.chair)).
  reflexivity.
Defined.

(** X5. With a selected file, when the upload action returns success
    and a non-empty URL, that URL becomes the [imageUrl] of the draft and
    no other field of the draft changes; the action was called once, with
    the file and the category of the draft ("products" when the draft has
    none); the success notification is shown; [isUploading] ends false
    and the file stays selected. *)
Theorem upload_success
    (action : FormData -> UploadOutcome) (st : State) (file : File)
    (result : UploadResult) (url : jsstring) :
  selectedFile st = Some file ->
  (forall fd, action fd = UploadReturns result) ->
  uploadSuccess result = true -> uploadUrl result = Some url -> url <> [] ->
  let run := handleUploadImage action in
  newProduct (state_after run st) = with_imageUrl url (newProduct st)
  /\ uploads_of (effects_of run st)
     = [{| formFile := file;
           formCategory :=
             if str_truthy (category (newProduct st))
             then category (newProduct st) else lit "products" |}]
  /\ toasts (effects_of run st) = [ToastSuccess (lit "Image uploaded successfully")]
  /\ isUploading (state_after run st) = false
  /\ selectedFile (state_after run st) = Some file.
Proof.
  intros Hf Ha Hok Hurl Hne run. subst run. unfold effects_of, state_after.
  rewrite (handleUploadImage_run action st file Hf). cbv zeta.
  rewrite Ha. unfold upload_ok. rewrite Hok, Hurl.
  apply str_truthy_nonempty in Hne. cbn [opt_truthy andb]. rewrite Hne.
  cbn [fst snd newProduct isUploading selectedFile]. repeat split.
  exact Hf.
Qed.

Lemma upload_success_witness :
  imageUrl (newProduct (state_after (handleUploadImage Samples.uploads)
                          (MoreSamples.picked emptyDraft)))
  = lit "https://res.cloudinary.com/demo/chair.png"
  /\ map formCategory
       (uploads_of (effects_of (handleUploadImage Samples.uploads)
                      (MoreSamples.picked emptyDraft)))
     = [lit "products"].
Proof.
  destruct (upload_success Samples.uploads (MoreSamples.picked emptyDraft)
              Samples.photo
              {| uploadSuccess := true;
                 uploadUrl := Some (lit "https://res.cloudinary.com/demo/chair.png");
                 uploadMessage := None |}
              (lit "https://res.cloudinary.com/demo/chair.png"))
    as (Hdraft & Hcall & _); try reflexivity.
  - discriminate.
  - split; [rewrite Hdraft|rewrite Hcall]; reflexivity.
Defined.

(** X6. With a selected file, when the upload action throws, reports
    failure, or returns no URL or an empty one, the notification is
    always the fixed "Failed to upload image": the message of the action
    is logged and never shown. The draft keeps the [imageUrl] it had and
    [isUploading] ends false. *)
Theorem upload_failure
    (action : FormData -> UploadOutcome) (st : State) (file : File) :
  selectedFile st = Some file ->
  (forall fd,
      match action fd with
      | UploadThrows _ => True
      | UploadReturns r => uploadSuccess r = false \/ opt_truthy (uploadUrl r) = false
      end) ->
  let run := handleUploadImage action in
  let formData :=
    {| formFile := file;
       formCategory := str_or (category (newProduct st)) (lit "products") |} in
  toasts (effects_of run st) = [ToastError (lit "Failed to upload image")]
  /\ In (ConsoleError (lit "Error uploading image:") (upload_error (action formData)))
       (effects_of run st)
  /\ newProduct (state_after run st) = newProduct st
  /\ isUploading (state_after run st) = false.
Proof.
  intros Hf Ha run formData. subst run. unfold effects_of, state_after.
  rewrite (handleUploadImage_run action st file Hf). cbv zeta. fold formData.
  assert (Hno : upload_ok (action formData) = None).
  { specialize (Ha formData). unfold upload_ok.
    destruct (action formData) as [e|r]; [reflexivity|].
    destruct Ha as [-> | Hu]; [reflexivity|].
    rewrite Hu. now rewrite andb_false_r. }
  rewrite Hno. cbn [fst snd]. repeat split. right. left. reflexivity.
Qed.

Lemma upload_failure_witness :
  toasts (effects_of (handleUploadImage MoreSamples.rejects)
            (MoreSamples.picked Samples.chair))
  = [ToastError (lit "Failed to upload image")]
  /\ In (ConsoleError (lit "Error uploading image:") (lit "File too large"))
       (effects_of (handleUploadImage MoreSamples.rejects)
          (MoreSamples.picked Samples.chair)).
Proof.
  destruct (upload_failure MoreSamples.rejects (MoreSamples.picked Samples.chair)
              Samples.photo) as (Htoast & Hlog & _).
  - reflexivity.
  - intros fd. left. reflexivity.
  - split; [exact Htoast|exact Hlog].
Defined.

(** X7. After an upload that succeeded with the URL [url], a submit
    passes the image check and issues one request whose body carries
    [url] as [imageUrl]. *)
Theorem upload_then_submit
    (base : jsval) (product : option Product.t)
    (server : Request -> FetchOutcome)
    (action : FormData -> UploadOutcome) (st : State) (file : File)
    (result : UploadResult) (url : jsstring) :
  selectedFile st = Some file ->
  (forall fd, action fd = UploadReturns result) ->
  uploadSuccess result = true -> uploadUrl result = Some url -> url <> [] ->
  let uploaded := state_after (handleUploadImage action) st in
  map (fun r => ProductData.imageUrl (body r))
    (requests (effects_of (handleAddProduct base product server) uploaded))
  = [url].
Proof.
  intros Hf Ha Hok Hurl Hne uploaded.
  apply str_truthy_nonempty in Hne.
  assert (Hdraft : newProduct uploaded = with_imageUrl url (newProduct st)).
  { subst uploaded. unfold state_after.
    rewrite (handleUploadImage_run action st file Hf). cbv zeta.
    rewrite Ha. unfold upload_ok. rewrite Hok, Hurl.
    cbn [opt_truthy andb]. rewrite Hne. reflexivity. }
  rewrite requests_of_run, Hdraft. cbn [imageUrl with_imageUrl].
  rewrite Hne. reflexivity.
Qed.

Lemma upload_then_submit_witness :
  map (fun r => ProductData.imageUrl (body r))
    (requests (effects_of (handleAddProduct Samples.base None Samples.accepts)
                 (state_after (handleUploadImage Samples.uploads)
                    (MoreSamples.picked emptyDraft))))
  = [lit "https://res.cloudinary.com/demo/chair.png"].
Proof.
  apply (upload_then_submit Samples.base None Samples.accepts Samples.uploads
           (MoreSamples.picked emptyDraft) Samples.photo
           {| uploadSuccess := true;
              uploadUrl := Some (lit "https://res.cloudinary.com/demo/chair.png");
              uploadMessage := None |}
           (lit "https://res.cloudinary.com/demo/chair.png"));
    try reflexivity.
  discriminate.
Defined.

(** X8. In create mode, once a file is selected a submit issues no
    request and shows the validation message, whatever the draft held
    before: an image uploaded earlier does not count any more. *)
Theorem select_then_submit
    (base : jsval) (server : Request -> FetchOutcome)
    (file : File) (files : list File) (st : State) :
  let selected := state_after (handleFileChange None (file :: files)) st in
  requests (effects_of (handleAddProduct base None server) selected) = []
  /\ toasts (effects_of (handleAddProduct base None server) selected)
     = [ToastError (lit "Please upload an image for the product")]
  /\ selectedFile selected = Some file
  /\ imagePreview selected = dataURL file.
Proof.
  intros selected.
  assert (H : imageUrl (newProduct selected) = []) by reflexivity.
  unfold effects_of. rewrite handleAddProduct_no_image by assumption.
  repeat split.
Qed.

(** X9. Opened on a product whose features are an array of strings
    that hold no line break and are not blank, the form sends that same
    array back when the features text is left as it is. *)
Theorem features_round_trip
    (base : jsval) (p : Product.t) (server : Request -> FetchOutcome)
    (st : State) (items : list jsstring) :
  Product.features p = Product.FeaturesArray items ->
  forallb plain_feature items = true ->
  let opened := state_after (populate (Some p)) st in
  featuresArray (newProduct opened) = items
  /\ map (fun r => ProductData.features (body r))
       (requests (effects_of (handleAddProduct base (Some p) server) opened))
     = if opt_truthy (Product.imageUrl p) then [items] else [].
Proof.
  intros Hp Hplain opened.
  assert (Hfeat : features (newProduct opened) = join LF items).
  { subst opened. unfold state_after, populate, bind, setNewProduct, modify.
    cbn [fst snd]. rewrite Hp.
    destruct (opt_truthy (Product.imageUrl p)); reflexivity. }
  assert (Himg : str_truthy (imageUrl (newProduct opened))
                 = opt_truthy (Product.imageUrl p)).
  { subst opened. unfold state_after, populate, bind, setNewProduct, modify.
    cbn [fst snd]. destruct (Product.imageUrl p) as [[|c u]|]; reflexivity. }
  assert (Hkeep : filter (fun f => negb (str_eqb (trim f) [])) items = items).
  { clear -Hplain. induction items as [|f items IH]; [reflexivity|].
    cbn [forallb] in Hplain. apply andb_prop in Hplain.
    destruct Hplain as [Hf Hrest]. unfold plain_feature in Hf.
    apply andb_prop in Hf. destruct Hf as [_ Hf].
    cbn [filter]. rewrite trim_blank, Hf, IH by assumption. reflexivity. }
  assert (Hfree : Forall (fun f => ~ In LF f) items).
  { clear -Hplain. rewrite forallb_forall in Hplain. apply Forall_forall.
    intros f Hin HLF. specialize (Hplain f Hin). unfold plain_feature in Hplain.
    apply andb_prop in Hplain. destruct Hplain as [Hno _].
    apply negb_true_iff in Hno.
    assert (Hex : existsb (fun c => (c =? LF)%N) f = true).
    { apply existsb_exists. exists LF. split; [assumption|apply N.eqb_refl]. }
    congruence. }
  assert (Harr : featuresArray (newProduct opened) = items).
  { unfold featuresArray. rewrite Hfeat.
    destruct items as [|f items]; [reflexivity|].
    assert (Hne : join LF (f :: items) <> []).
    { cbn [forallb] in Hplain. apply andb_prop in Hplain.
      destruct Hplain as [Hf _]. unfold plain_feature in Hf.
      apply andb_prop in Hf. destruct Hf as [_ Hf].
      destruct f as [|c f]; [discriminate|].
      destruct items; discriminate. }
    apply str_truthy_nonempty in Hne. rewrite Hne.
    rewrite split_join; [exact Hkeep|discriminate|exact Hfree]. }
  split; [exact Harr|].
  rewrite requests_of_run, Himg.
  destruct (opt_truthy (Product.imageUrl p)); [|reflexivity].
  cbn [map request_for body productData ProductData.features].
  now rewrite Harr.
Qed.

Lemma features_round_trip_witness :
  featuresArray
    (newProduct (state_after (populate (Some (Samples.stored (VNum (of_N 42)))))
                   initialState))
  = [lit "Oak"; lit "Hand made"].
Proof.
  apply (features_round_trip Samples.base (Samples.stored (VNum (of_N 42)))
           Samples.accepts initialState [lit "Oak"; lit "Hand made"]);
    reflexivity.
Defined.

(** X10. Opened on a product that has an image, the form can be
    submitted without a new upload: one request goes out, with the image
    URL of the product and with its name, description, category and
    sub-category as stored (the empty string for an absent one), by PUT
    when the identifier is truthy and by POST otherwise; and the preview
    shows the stored image. *)
Theorem edit_then_submit
    (base : jsval) (p : Product.t) (server : Request -> FetchOutcome)
    (st : State) (stored_url : jsstring) :
  Product.imageUrl p = Some stored_url -> stored_url <> [] ->
  let opened := state_after (populate (Some p)) st in
  imagePreview opened = Some stored_url
  /\ exists req,
       requests (effects_of (handleAddProduct base (Some p) server) opened) = [req]
       /\ method req = (if truthy (Product.id p) then PUT else POST)
       /\ ProductData.imageUrl (body req) = stored_url
       /\ ProductData.name (body req) = opt_or (Product.name p) []
       /\ ProductData.description (body req) = opt_or (Product.description p) []
       /\ ProductData.category (body req) = opt_or (Product.category p) []
       /\ ProductData.subCategory (body req) = opt_or (Product.subCategory p) [].
Proof.
  intros Hu Hne opened.
  destruct stored_url as [|c u]; [congruence|].
  assert (Hopen : opened
                  = state_after (populate (Some p)) st) by reflexivity.
  unfold state_after, populate, bind, setNewProduct, setImagePreview, modify in Hopen.
  rewrite Hu in Hopen. cbn in Hopen.
  split; [rewrite Hopen; reflexivity|].
  exists (request_for base (Some p) (newProduct opened)).
  rewrite requests_of_run. rewrite Hopen. cbn.
  repeat split.
Qed.

Lemma edit_then_submit_witness :
  map (fun r => (method r, ProductData.imageUrl (body r)))
    (requests
       (effects_of
          (handleAddProduct Samples.base (Some (Samples.stored (VNum (of_N 42))))
             Samples.accepts)
          (state_after (populate (Some (Samples.stored (VNum (of_N 42)))))
             initialState)))
  = [(PUT, lit "https://res.cloudinary.com/demo/chair.png")].
Proof.
  destruct (edit_then_submit Samples.base (Samples.stored (VNum (of_N 42)))
              Samples.accepts initialState
              (lit "https://res.cloudinary.com/demo/chair.png"))
    as (_ & req & Hreq & Hm & Hu & _).
  - reflexivity.
  - discriminate.
  - rewrite Hreq. cbn [map]. rewrite Hm, Hu. reflexivity.
Defined.

(** X11. Closing resets the form whatever state it is in: the draft is
    empty, no file is selected, there is no preview and [isUploading] is
    false, while [isSubmitting] is left as it is; the parent is told to
    close, once; a submit right after is stopped by the image check; and
    opening the form without a product leaves the same state. *)
Theorem close_resets
    (base : jsval) (product : option Product.t)
    (server : Request -> FetchOutcome) (st : State) :
  let closed := state_after handleClose st in
  closed = {| isSubmitting := isSubmitting st; isUploading := false;
              selectedFile := None; imagePreview := None;
              newProduct := emptyDraft |}
  /\ effects_of handleClose st = [OnClose]
  /\ requests (effects_of (handleAddProduct base product server) closed) = []
  /\ state_after (populate None) st = closed
  /\ state_after handleClose closed = closed.
Proof.
  intros closed. repeat split.
Qed.

(** X12. The "Upload Image" button is rendered exactly when a file is
    selected, and then it is disabled exactly while an upload is running:
    the second condition of its [disabled] can not hold when the button
    is there. It is styled as done exactly when the draft has an
    [imageUrl]. Cancel and submit are disabled exactly while a submit or
    an upload is running. *)
Theorem upload_button
    (PRODUCT_SUB_CATEGORIES : jsstring -> option (list jsstring))
    (product : option Product.t) (st : State) :
  let v := render PRODUCT_SUB_CATEGORIES product st in
  uploadButton v
  = match selectedFile st with
    | Some _ =>
        Some {| uploadDisabled := isUploading st;
                uploadDone := str_truthy (imageUrl (newProduct st));
                uploadLabel := if isUploading st then lit "Uploading..."
                               else lit "Upload Image" |}
    | None => None
    end
  /\ submitDisabled v = (isSubmitting st || isUploading st)
  /\ cancelDisabled v = submitDisabled v.
Proof.
  intros v. subst v. unfold render. cbn [uploadButton submitDisabled cancelDisabled].
  repeat split.
  destruct (selectedFile st) as [file|]; [|reflexivity].
  cbn [given negb]. now rewrite !andb_false_r, !andb_true_r, orb_false_r.
Qed.

(** X13. The labels of the modal go by whether a product was given, the
    request by whether its identifier is truthy. Opened on a product with
    an absent or falsy identifier, the modal is titled "Update Product"
    and its submit button reads "Update Product", yet a submit issues a
    POST on /api/products, and on success without a message of the
    server the notification reads "Product added successfully". *)
Theorem update_labels_create_request
    (base : jsval) (PRODUCT_SUB_CATEGORIES : jsstring -> option (list jsstring))
    (p : Product.t) (server : Request -> FetchOutcome) (st : State) :
  truthy (Product.id p) = false ->
  imageUrl (newProduct st) <> [] ->
  isSubmitting st = false ->
  (forall req, server req = FetchJson {| success := true; message := None |}) ->
  let v := render PRODUCT_SUB_CATEGORIES (Some p) st in
  let run := handleAddProduct base (Some p) server in
  title v = lit "Update Product"
  /\ submitLabel v = lit "Update Product"
  /\ map (fun r => (method r, url r)) (requests (effects_of run st))
     = [(POST, ToString base ++ lit "/api/products")]
  /\ toasts (effects_of run st) = [ToastSuccess (lit "Product added successfully")].
Proof.
  intros Hid Himg Hidle Hs v run. subst v run.
  unfold render. cbn [title submitLabel given]. rewrite Hidle.
  split; [reflexivity|]. split; [reflexivity|].
  rewrite requests_of_run.
  assert (Ht : str_truthy (imageUrl (newProduct st)) = true)
    by now apply str_truthy_nonempty.
  rewrite Ht. unfold effects_of. rewrite handleAddProduct_run by assumption.
  rewrite Hs. unfold request_for, isEditing. rewrite Hid.
  split; reflexivity.
Qed.

Lemma update_labels_create_request_witness :
  title (render Samples.table (Some (Samples.stored VUndefined))
           (Samples.form Samples.chair))
  = lit "Update Product"
  /\ map (fun r => (method r, url r))
       (requests (effects_of
                    (handleAddProduct Samples.base (Some (Samples.stored VUndefined))
                       Samples.accepts)
                    (Samples.form Samples.chair)))
     = [(POST, lit "https://admin.example/api/products")].
Proof.
  destruct (update_labels_create_request Samples.base Samples.table
              (Samples.stored VUndefined) Samples.accepts
              (Samples.form Samples.chair))
    as (Ht & _ & Hr & _); try reflexivity.
  - discriminate.
  - split; [exact Ht|exact Hr].
Defined.

(* ===================================================================== *)
(** * NewsletterPage: loading, paging and rendering *)
(* ===================================================================== *)

Module PageFacts.
Import NewsletterPage NewsletterView JSFacts DebounceFacts.

Lemma fetches_app (a b : list Effect) : fetches (a ++ b) = fetches a ++ fetches b.
Proof. unfold fetches. apply flat_map_app. Qed.

(** The page as its timeout leaves it. *)
Lemma armed_fired (t : N) (v : jsstring) (p : Page) (T : N) :
  armed t v p -> (t + delay <= T)%N ->
  now (advance T p) = T
  /\ searchQuery (view (advance T p)) = v
  /\ pagination (view (advance T p)) = pagination (view p)
  /\ emails (view (advance T p)) = emails (view p)
  /\ loading (view (advance T p)) = true.
Proof.
  intros (Hn & Hq & id & Ht & _) HT. unfold advance. rewrite Ht.
  cbn [filter due].
  assert (Hmax : (t + delay <=? N.max (now p) T)%N = true)
    by (apply N.leb_le; lia).
  rewrite Hmax. cbn. repeat split; [lia|assumption].
Qed.

Lemma mount_armed (t0 : N) : armed t0 [] (mount t0).
Proof.
  split; [reflexivity|]. split; [reflexivity|].
  exists 1%N. split; reflexivity.
Qed.

(** Keystrokes far apart each get their fetch. *)
Lemma spaced_run (keys : list (N * jsstring)) :
  forall (p : Page) (t0 : N) (v0 : jsstring) (T : N),
    armed t0 v0 p -> spaced t0 v0 keys = true ->
    (fst (last keys (t0, v0)) + delay <= T)%N ->
    trace (run p (map (fun k => Input (fst k) (snd k)) keys ++ [Wait T]))
    = trace p ++ map (debounced (itemsPerPage (pagination (view p))))
                   ((t0, v0) :: keys).
Proof.
  induction keys as [|[t v] keys IH]; intros p t0 v0 T Harm Hsp HT.
  - cbn [map app run fold_left step last fst snd] in *.
    destruct (armed_fires t0 v0 p T Harm HT) as [Hfire _].
    rewrite Hfire. reflexivity.
  - cbn [spaced] in Hsp.
    apply andb_prop in Hsp. destruct Hsp as [Hsp Hrest].
    apply andb_prop in Hsp. destruct Hsp as [Hle Hnew].
    apply N.leb_le in Hle. apply negb_true_iff in Hnew.
    rewrite last_cons_default in HT.
    destruct (armed_fires t0 v0 p t Harm Hle) as [Hfire _].
    destruct (armed_fired t0 v0 p t Harm Hle) as (Hnow & Hq & Hpg & _).
    destruct (keystroke_arms (advance t p) v) as (Ha & Htr & Hpg1).
    { eapply advance_tidy, armed_tidy, Harm. }
    { now rewrite Hq. }
    rewrite Hnow in Ha.
    cbn [map app]. rewrite run_cons. cbn [step fst snd].
    rewrite (IH _ t v T Ha Hrest HT).
    rewrite Htr, Hfire, Hpg1, Hpg. rewrite <- app_assoc. reflexivity.
Qed.

Lemma advance_view (t : N) (p : Page) :
  searchQuery (view (advance t p)) = searchQuery (view p).
Proof. apply (advance_frame t p). Qed.

Lemma filter_length_le {A} (f : A -> bool) (l : list A) :
  (List.length (filter f l) <= List.length l)%nat.
Proof.
  induction l as [|x l IH]; [apply le_n|].
  cbn [filter]. destruct (f x); cbn [List.length]; lia.
Qed.

Lemma advance_fresh (t : N) (p : Page) : timer_fresh p -> timer_fresh (advance t p).
Proof.
  unfold timer_fresh. intros [Hlen Hall].
  destruct (advance_frame t p) as (Hn & _ & Hd & Hq & _ & _ & Ht).
  rewrite Ht, Hd, Hq, Hn. split.
  - pose proof (filter_length_le
                  (fun tm => negb (due tm <=? N.max (now p) t)%N) (timers p)).
    lia.
  - intros tm Hin. apply filter_In in Hin. destruct Hin as [Hin Hdue].
    apply negb_true_iff, N.leb_gt in Hdue.
    destruct (Hall tm Hin) as (H1 & H2 & H3).
    repeat split; [assumption|assumption|lia].
Qed.

Lemma fresh_tidy (p : Page) : timer_fresh p -> tidy p.
Proof.
  unfold timer_fresh, tidy. intros [Hlen Hall].
  destruct (timers p) as [|tm [|tm' l]]; [now left| |cbn in Hlen; lia].
  right. exists tm. split; [reflexivity|]. apply (Hall tm). now left.
Qed.

Lemma armed_fresh (t : N) (v : jsstring) (p : Page) : armed t v p -> timer_fresh p.
Proof.
  intros (Hn & Hq & id & Ht & Hd). unfold timer_fresh. rewrite Ht, Hd. split.
  - apply le_n.
  - intros tm [<-|[]]. cbn [ident closure due].
    repeat split. lia.
Qed.

Lemma step_fresh (p : Page) (e : Event) : timer_fresh p -> timer_fresh (step p e).
Proof.
  intros H. destruct e as [t v|t pg|t r|t]; cbn [step];
    apply (advance_fresh t) in H; set (q := advance t p) in *; clearbody q.
  - destruct (str_eqb v (searchQuery (view q))) eqn:E.
    + unfold handleSearchChange. now rewrite E.
    + destruct (keystroke_arms q v (fresh_tidy q H) E) as (Ha & _).
      eapply armed_fresh, Ha.
  - exact H.
  - destruct r as [err|[|] data [pg|] msg]; exact H.
  - assumption.
Qed.

Lemma run_timers_first_page (ripe : list Timer) :
  forall p : Page,
    first_page_only (trace p) ->
    first_page_only (trace (fold_left run_timer ripe p)).
Proof.
  induction ripe as [|tm ripe IH]; intros p H; [exact H|].
  cbn [fold_left]. apply IH. unfold first_page_only in *. cbn.
  rewrite fetches_app. apply Forall_app. split; [exact H|].
  repeat constructor.
Qed.

Lemma advance_first_page (t : N) (p : Page) :
  first_page_only (trace p) -> first_page_only (trace (advance t p)).
Proof. intros H. unfold advance. now apply run_timers_first_page. Qed.

Lemma step_first_page (p : Page) (e : Event) :
  is_click e = false ->
  first_page_only (trace p) -> first_page_only (trace (step p e)).
Proof.
  intros Hc H. destruct e as [t v|t pg|t r|t]; try discriminate; cbn [step];
    apply (advance_first_page t) in H; set (q := advance t p) in *; clearbody q.
  - destruct (str_eqb v (searchQuery (view q))) eqn:E.
    + unfold handleSearchChange. now rewrite E.
    + unfold handleSearchChange. rewrite E.
      destruct (cleanup_frame (with_view (setSearchQuery v (view q)) q))
        as (_ & _ & _ & Htr).
      cbn [schedule setTimeout trace]. rewrite Htr. exact H.
  - unfold first_page_only in *.
    destruct r as [err|[|] data [pg|] msg]; cbn; rewrite ?fetches_app;
      cbn; rewrite ?app_nil_r; exact H.
  - exact H.
Qed.

(** The ceiling of the quotient, between its bounds. *)
Lemma ceil_quotient_bounds (a b : Z) :
  (0 <= a < 2 ^ 53)%Z -> (0 < b < 2 ^ 53)%Z ->
  exists c, JSMath.ceil_quotient a b = Some (JSMath.of_Z c)
            /\ ((c - 1) * b < a <= c * b)%Z.
Proof.
  intros Ha Hb. exists (- ((- a) / b))%Z. split.
  - unfold JSMath.ceil_quotient, JSMath.isSafeInteger.
    rewrite (proj2 (Z.ltb_lt (Z.abs a) (2 ^ 53))) by lia.
    rewrite (proj2 (Z.ltb_lt (Z.abs b) (2 ^ 53))) by lia.
    cbn [andb].
    rewrite (proj2 (Z.eqb_neq b 0)) by lia. cbv zeta.
    destruct (Z.eqb_spec (- (- a / b)) 0) as [E|E]; [|reflexivity].
    rewrite E. unfold JSMath.of_Z. cbn.
    destruct (Z.eqb_spec a 0) as [_|Hne].
    + now rewrite (proj2 (Z.ltb_ge b 0)) by lia.
    + exfalso.
      pose proof (Z.div_mod (- a) b ltac:(lia)).
      pose proof (Z.mod_pos_bound (- a) b ltac:(lia)). nia.
  - pose proof (Z.div_mod (- a) b ltac:(lia)).
    pose proof (Z.mod_pos_bound (- a) b ltac:(lia)). nia.
Qed.

End PageFacts.

Import NewsletterView PageFacts.

(** X14. The first load of the newsletter page is debounced like a
    search: nothing is fetched before 500ms have passed since the mount,
    and then one request goes out for page 1, ten items, and the empty
    search text. *)
Theorem initial_load (t0 T : N) :
  ((T < t0 + NewsletterPage.delay)%N ->
   NewsletterPage.trace
     (NewsletterPage.run (NewsletterPage.mount t0) [NewsletterPage.Wait T]) = [])
  /\ ((t0 + NewsletterPage.delay <= T)%N ->
      NewsletterPage.trace
        (NewsletterPage.run (NewsletterPage.mount t0) [NewsletterPage.Wait T])
      = [NewsletterPage.Fetch (t0 + 500)
           {| NewsletterPage.page := 1; NewsletterPage.limit := 10;
              NewsletterPage.search := [] |}]).
Proof.
  split; intros H.
  - cbn [NewsletterPage.run fold_left NewsletterPage.step].
    unfold NewsletterPage.advance, NewsletterPage.mount, NewsletterPage.schedule,
      NewsletterPage.setTimeout.
    cbn [NewsletterPage.timers NewsletterPage.now NewsletterPage.enqueue
         filter NewsletterPage.due].
    rewrite (proj2 (N.leb_gt (t0 + NewsletterPage.delay) (N.max t0 T)))
      by (unfold NewsletterPage.delay in *; lia).
    reflexivity.
  - cbn [NewsletterPage.run fold_left NewsletterPage.step].
    destruct (DebounceFacts.armed_fires t0 [] (NewsletterPage.mount t0) T
                (mount_armed t0) H) as [Hfire _].
    rewrite Hfire. reflexivity.
Qed.

Lemma initial_load_witness :
  NewsletterPage.trace
    (NewsletterPage.run (NewsletterPage.mount 0) [NewsletterPage.Wait 499]) = []
  /\ NewsletterPage.trace
       (NewsletterPage.run (NewsletterPage.mount 0) [NewsletterPage.Wait 500])
     = [NewsletterPage.Fetch 500
          {| NewsletterPage.page := 1; NewsletterPage.limit := 10;
             NewsletterPage.search := [] |}].
Proof.
  split.
  - apply (initial_load 0 499). reflexivity.
  - apply (initial_load 0 500). vm_compute. discriminate.
Defined.

(** X15. A page click fetches at once, with the page clicked and the
    text the box holds, and leaves a pending debounce alone: clicked
    while a search is still pending, the page request is followed, when
    the delay has run out, by the request of that search for page 1. *)
Theorem page_click_during_debounce
    (p : NewsletterPage.Page) (t : N) (v : jsstring)
    (t' : N) (clicked : Z) (T : N) :
  NewsletterPage.armed t v p ->
  (t <= t')%N -> (t' < t + NewsletterPage.delay)%N ->
  (t + NewsletterPage.delay <= T)%N ->
  let limit :=
    NewsletterPage.itemsPerPage (NewsletterPage.pagination (NewsletterPage.view p)) in
  NewsletterPage.trace
    (NewsletterPage.run p
       [NewsletterPage.PageClick t' clicked; NewsletterPage.Wait T])
  = NewsletterPage.trace p
    ++ [NewsletterPage.Fetch t'
          {| NewsletterPage.page := clicked; NewsletterPage.limit := limit;
             NewsletterPage.search := v |};
        NewsletterPage.Fetch (t + 500)
          {| NewsletterPage.page := 1; NewsletterPage.limit := limit;
             NewsletterPage.search := v |}].
Proof.
  intros Harm H1 H2 HT limit. subst limit.
  pose proof (DebounceFacts.advance_armed t v p t' Harm H1 H2) as Hadv.
  destruct Harm as (Hn & Hq & id & Ht & Hd).
  cbn [NewsletterPage.run fold_left NewsletterPage.step].
  rewrite Hadv.
  unfold NewsletterPage.handlePageChange, NewsletterPage.fetchNewsletters,
    NewsletterPage.advance.
  cbn [NewsletterPage.timers NewsletterPage.now NewsletterPage.view
       NewsletterPage.trace].
  rewrite Ht. cbn [filter NewsletterPage.due].
  rewrite (proj2 (N.leb_le (t + NewsletterPage.delay) (N.max t' T))) by lia.
  cbn. rewrite Hq, <- app_assoc. reflexivity.
Qed.

Lemma page_click_during_debounce_witness :
  NewsletterPage.trace
    (NewsletterPage.run (NewsletterPage.mount 0)
       [NewsletterPage.PageClick 200 3; NewsletterPage.Wait 600])
  = [NewsletterPage.Fetch 200
       {| NewsletterPage.page := 3; NewsletterPage.limit := 10;
          NewsletterPage.search := [] |};
     NewsletterPage.Fetch 500
       {| NewsletterPage.page := 1; NewsletterPage.limit := 10;
          NewsletterPage.search := [] |}].
Proof.
  apply (page_click_during_debounce (NewsletterPage.mount 0) 0 [] 200 3 600).
  - apply mount_armed.
  - vm_compute. discriminate.
  - reflexivity.
  - vm_compute. discriminate.
Defined.

(** X16. When the reply to a fetch is there, the loading flag is
    cleared whatever the reply is, and nothing is fetched and no timeout
    is set or cleared. A reply with [success: true] replaces the list, and the
    pagination only if the reply carries one. A failure, reported by the
    server or thrown in transit, leaves list and pagination as they are
    and shows one notification: the message of the server when it is not
    empty, "Failed to fetch newsletters" otherwise. *)
Theorem reply_handling (r : NewsletterPage.Reply) (p : NewsletterPage.Page) :
  let p' := NewsletterPage.fetchNewsletters_resume r p in
  NewsletterPage.loading (NewsletterPage.view p') = false
  /\ NewsletterPage.fetches (NewsletterPage.trace p')
     = NewsletterPage.fetches (NewsletterPage.trace p)
  /\ NewsletterPage.timers p' = NewsletterPage.timers p
  /\ NewsletterPage.delayDebounceFn p' = NewsletterPage.delayDebounceFn p
  /\ NewsletterPage.searchQuery (NewsletterPage.view p')
     = NewsletterPage.searchQuery (NewsletterPage.view p)
  /\ match r with
     | NewsletterPage.ReplyJson true data carried _ =>
         NewsletterPage.emails (NewsletterPage.view p') = data
         /\ NewsletterPage.pagination (NewsletterPage.view p')
            = match carried with
              | Some pg => pg
              | None => NewsletterPage.pagination (NewsletterPage.view p)
              end
         /\ NewsletterPage.trace p' = NewsletterPage.trace p
     | NewsletterPage.ReplyJson false _ _ msg =>
         NewsletterPage.emails (NewsletterPage.view p')
         = NewsletterPage.emails (NewsletterPage.view p)
         /\ NewsletterPage.pagination (NewsletterPage.view p')
            = NewsletterPage.pagination (NewsletterPage.view p)
         /\ NewsletterPage.trace p'
            = NewsletterPage.trace p
              ++ [NewsletterPage.ToastError
                    (match msg with
                     | Some (c :: m) => c :: m
                     | _ => lit "Failed to fetch newsletters"
                     end)]
     | NewsletterPage.ReplyThrows error =>
         NewsletterPage.emails (NewsletterPage.view p')
         = NewsletterPage.emails (NewsletterPage.view p)
         /\ NewsletterPage.pagination (NewsletterPage.view p')
            = NewsletterPage.pagination (NewsletterPage.view p)
         /\ NewsletterPage.trace p'
            = NewsletterPage.trace p
              ++ [NewsletterPage.ConsoleError (lit "Error fetching newsletters:") error;
                  NewsletterPage.ToastError (lit "Failed to fetch newsletters")]
     end.
Proof.
  intros p'. subst p'.
  destruct r as [error|[|] data [pg|] [[|c m]|]];
    cbn; rewrite ?fetches_app; cbn; rewrite ?app_nil_r; repeat split.
Qed.

(** X17. Keystrokes that each change the text and come at least 500ms
    after the one before are not merged: starting with a pending search,
    that search and the search of every keystroke are fetched, each
    500ms after its keystroke, each for page 1, in the order typed. *)
Theorem spaced_keystrokes
    (p : NewsletterPage.Page) (t0 : N) (v0 : jsstring)
    (keys : list (N * jsstring)) (T : N) :
  NewsletterPage.armed t0 v0 p ->
  spaced t0 v0 keys = true ->
  (fst (last keys (t0, v0)) + NewsletterPage.delay <= T)%N ->
  NewsletterPage.trace
    (NewsletterPage.run p
       (map (fun k => NewsletterPage.Input (fst k) (snd k)) keys
        ++ [NewsletterPage.Wait T]))
  = NewsletterPage.trace p
    ++ map (debounced
              (NewsletterPage.itemsPerPage
                 (NewsletterPage.pagination (NewsletterPage.view p))))
         ((t0, v0) :: keys).
Proof.
  intros Harm Hsp HT. now apply spaced_run.
Qed.

Lemma spaced_keystrokes_witness :
  NewsletterPage.trace
    (NewsletterPage.run (NewsletterPage.mount 0)
       [NewsletterPage.Input 600 (lit "o");
        NewsletterPage.Input 1200 (lit "oa");
        NewsletterPage.Wait 2000])
  = [NewsletterPage.Fetch 500
       {| NewsletterPage.page := 1; NewsletterPage.limit := 10;
          NewsletterPage.search := [] |};
     NewsletterPage.Fetch 1100
       {| NewsletterPage.page := 1; NewsletterPage.limit := 10;
          NewsletterPage.search := lit "o" |};
     NewsletterPage.Fetch 1700
       {| NewsletterPage.page := 1; NewsletterPage.limit := 10;
          NewsletterPage.search := lit "oa" |}].
Proof.
  apply (spaced_keystrokes (NewsletterPage.mount 0) 0 []
           [(600%N, lit "o"); (1200%N, lit "oa")] 2000).
  - apply mount_armed.
  - reflexivity.
  - vm_compute. discriminate.
Defined.

(** X18. Whatever happens to the page after it mounts, at most one
    timeout is pending, and it is the one the cleanup of the effect
    holds, so that the next change of the text clears it; it will search
    for the text the box holds at that moment, never for an older one,
    and it is due no later than 500ms from now. *)
Theorem pending_search_is_current (t0 : N) (events : list NewsletterPage.Event) :
  timer_fresh (NewsletterPage.run (NewsletterPage.mount t0) events).
Proof.
  assert (H0 : timer_fresh (NewsletterPage.mount t0))
    by (eapply armed_fresh, mount_armed).
  revert H0. generalize (NewsletterPage.mount t0).
  induction events as [|e events IH]; intros p Hp; [exact Hp|].
  rewrite DebounceFacts.run_cons. apply IH. now apply step_fresh.
Qed.

(** X19. Only a page click asks for a page other than 1: through
    events among which there is no page click, if every request so far
    was for page 1, every request afterwards is. *)
Theorem searches_reset_the_page
    (p : NewsletterPage.Page) (events : list NewsletterPage.Event) :
  first_page_only (NewsletterPage.trace p) ->
  existsb is_click events = false ->
  first_page_only (NewsletterPage.trace (NewsletterPage.run p events)).
Proof.
  revert p. induction events as [|e events IH]; intros p Hp Hc; [exact Hp|].
  cbn [existsb] in Hc. apply orb_false_iff in Hc. destruct Hc as [He Hc].
  rewrite DebounceFacts.run_cons. apply IH; [|exact Hc].
  now apply step_first_page.
Qed.

Lemma searches_reset_the_page_witness :
  first_page_only
    (NewsletterPage.trace
       (NewsletterPage.run (NewsletterPage.mount 0)
          [NewsletterPage.Input 100 (lit "o");
           NewsletterPage.Wait 700;
           NewsletterPage.Response 800
             (NewsletterPage.ReplyJson true [] None None);
           NewsletterPage.Input 900 (lit "oa");
           NewsletterPage.Wait 1500])).
Proof.
  apply (searches_reset_the_page (NewsletterPage.mount 0)).
  - constructor.
  - reflexivity.
Defined.

(** X20. While a fetch is awaited the page shows the loading state and
    no table. After a reply with [success: true] the table has one row
    per entry of the reply, in its order, with the identifier as key and
    the mail address; for an empty reply it has exactly one placeholder
    row and no data row; and the pagination control is there exactly
    when the reply is not empty. *)
Theorem table_rows
    (toLocaleDateString : jsstring -> jsstring)
    (closure : NewsletterPage.State) (t : N) (page : Z) (search : jsstring)
    (p : NewsletterPage.Page)
    (data : list NewsletterPage.Newsletter)
    (carried : option NewsletterPage.NewsletterPagination)
    (msg : option jsstring) :
  render toLocaleDateString
    (NewsletterPage.view (NewsletterPage.fetchNewsletters closure t page search p))
  = LoadingState
  /\ exists rows control,
       render toLocaleDateString
         (NewsletterPage.view
            (NewsletterPage.fetchNewsletters_resume
               (NewsletterPage.ReplyJson true data carried msg) p))
       = Listing rows control
       /\ data_rows rows
          = map (fun item => Entry (NewsletterPage.id item)
                               (NewsletterPage.email item)
                               (toLocaleDateString (NewsletterPage.createdAt item)))
              data
       /\ placeholders rows = (if List.length data =? 0 then 1 else 0)%nat
       /\ (control = None <-> data = []).
Proof.
  split; [reflexivity|].
  assert (Hrows : forall l : list NewsletterPage.Newsletter,
             data_rows
               (map (fun item => Entry (NewsletterPage.id item)
                                   (NewsletterPage.email item)
                                   (toLocaleDateString (NewsletterPage.createdAt item))) l)
             = map (fun item => Entry (NewsletterPage.id item)
                                  (NewsletterPage.email item)
                                  (toLocaleDateString (NewsletterPage.createdAt item))) l
             /\ placeholders
                  (map (fun item => Entry (NewsletterPage.id item)
                                      (NewsletterPage.email item)
                                      (toLocaleDateString (NewsletterPage.createdAt item))) l)
                = 0%nat).
  { induction l as [|x l [IH1 IH2]]; [split; reflexivity|].
    unfold data_rows, placeholders in *. cbn. rewrite IH1.
    split; [reflexivity|exact IH2]. }
  destruct carried as [pg|]; destruct data as [|item data];
    (eexists; eexists; split; [reflexivity|]);
    try (repeat split; auto; fail);
    destruct (Hrows (item :: data)) as [H1 H2];
    (split; [exact H1|]); (split; [exact H2|]); split; discriminate.
Qed.

(** X21. For a total that is not negative and a positive page size,
    both below 2^53, the [maxPageReached] handed to the pagination
    control is the least number of pages that hold the total: one page
    less would not; and going back is offered exactly from a page after
    the first. *)
Theorem max_page_reached
    (toLocaleDateString : jsstring -> jsstring)
    (s : NewsletterPage.State) (rows : list Row) (props : Pagination.Props) :
  render toLocaleDateString s = Listing rows (Some props) ->
  (0 <= NewsletterPage.total (NewsletterPage.pagination s) < 2 ^ 53)%Z ->
  (0 < NewsletterPage.itemsPerPage (NewsletterPage.pagination s) < 2 ^ 53)%Z ->
  (exists pages,
      Pagination.maxPageReached props = Some (JSMath.of_Z pages)
      /\ ((pages - 1) * NewsletterPage.itemsPerPage (NewsletterPage.pagination s)
          < NewsletterPage.total (NewsletterPage.pagination s)
          <= pages * NewsletterPage.itemsPerPage (NewsletterPage.pagination s))%Z)
  /\ (Pagination.canGoPrev props = true
      <-> (1 < NewsletterPage.currentPage (NewsletterPage.pagination s))%Z)
  /\ Pagination.itemsOnCurrentPage props
     = List.length (NewsletterPage.emails s).
Proof.
  unfold render. intros Hr Ht Hi.
  destruct (NewsletterPage.loading s); [discriminate|].
  cbn [negb andb] in Hr.
  destruct (0 <? List.length (NewsletterPage.emails s))%nat; [|discriminate].
  inversion Hr; subst props. cbn [Pagination.maxPageReached Pagination.canGoPrev
                                   Pagination.itemsOnCurrentPage].
  split; [now apply ceil_quotient_bounds|].
  split; [apply Z.ltb_lt|reflexivity].
Qed.

Lemma max_page_reached_witness :
  exists pages,
    JSMath.ceil_quotient 25 10 = Some (JSMath.of_Z pages)
    /\ ((pages - 1) * 10 < 25 <= pages * 10)%Z.
Proof.
  destruct (max_page_reached (fun s => s)
              {| NewsletterPage.emails := [MoreSamples.subscriber 1 "a@example.org"];
                 NewsletterPage.loading := false;
                 NewsletterPage.searchQuery := [];
                 NewsletterPage.pagination :=
                   {| NewsletterPage.currentPage := 3;
                      NewsletterPage.itemsPerPage := 10;
                      NewsletterPage.hasMore := false;
                      NewsletterPage.offset := 20;
                      NewsletterPage.total := 25 |} |}
              _ _ eq_refl) as [H _].
  - split; [vm_compute; discriminate|reflexivity].
  - split; reflexivity.
  - exact H.
Defined.

(* ===================================================================== *)
(** * Numbers written and read back *)
(* ===================================================================== *)

Module NumberFacts.
Import JSFacts SpecWords ParseFacts.























End NumberFacts.

Module RoundTripFacts.
Import JSFacts SpecWords ParseFacts NumberFacts.


End RoundTripFacts.

Import AddProductModal.



Import ModalView SubmitFacts JSFacts.

(** X23. In edit mode a file that is selected but not uploaded is
    not sent: opened on a product that has an image, after a file is
    chosen the preview shows the new file, yet a submit passes the image
    check and its request carries the image URL of the product. An
    event of the file input without a file changes nothing, in either
    mode. *)
Theorem edit_select_without_upload
    (base : jsval) (p : Product.t) (server : Request -> FetchOutcome)
    (st : State) (stored_url : jsstring) (file : File) (files : list File) :
  Product.imageUrl p = Some stored_url -> stored_url <> [] ->
  let opened := state_after (populate (Some p)) st in
  let selected := state_after (handleFileChange (Some p) (file :: files)) opened in
  imagePreview selected = dataURL file
  /\ selectedFile selected = Some file
  /\ map (fun r => ProductData.imageUrl (body r))
       (requests (effects_of (handleAddProduct base (Some p) server) selected))
     = [stored_url]
  /\ (forall product, state_after (handleFileChange product []) st = st).
Proof.
  intros Hu Hne opened selected.
  destruct stored_url as [|c u]; [congruence|].
  assert (Himg : imageUrl (newProduct selected) = c :: u).
  { subst selected opened.
    unfold state_after, populate, handleFileChange, bind, setNewProduct,
      setImagePreview, setSelectedFile, modify, ret.
    rewrite Hu. reflexivity. }
  repeat split.
  - rewrite requests_of_run, Himg.
    cbn [str_truthy map request_for body productData ProductData.imageUrl].
    now rewrite Himg.
Qed.

Lemma edit_select_without_upload_witness :
  imagePreview
    (state_after (handleFileChange (Some (Samples.stored (VNum (of_N 42))))
                    [Samples.photo])
       (state_after (populate (Some (Samples.stored (VNum (of_N 42)))))
          initialState))
  = Some (lit "data:image/png;base64,AAAA")
  /\ map (fun r => ProductData.imageUrl (body r))
       (requests
          (effects_of
             (handleAddProduct Samples.base (Some (Samples.stored (VNum (of_N 42))))
                Samples.accepts)
             (state_after (handleFileChange (Some (Samples.stored (VNum (of_N 42))))
                             [Samples.photo])
                (state_after (populate (Some (Samples.stored (VNum (of_N 42)))))
                   initialState))))
     = [lit "https://res.cloudinary.com/demo/chair.png"].
Proof.
  destruct (edit_select_without_upload Samples.base
              (Samples.stored (VNum (of_N 42))) Samples.accepts initialState
              (lit "https://res.cloudinary.com/demo/chair.png")
              Samples.photo [])
    as (Hp & _ & Hr & _).
  - reflexivity.
  - discriminate.
  - split; [exact Hp|exact Hr].
Defined.

(** X24. After a change of the category the sub-category dropdown
    holds no selection and offers what the table lists for the new
    category: nothing for the empty category, for which it is disabled,
    and nothing for a category the table does not know. *)
Theorem category_change_options
    (PRODUCT_SUB_CATEGORIES : jsstring -> option (list jsstring))
    (product : option Product.t) (st : State) (val : jsstring) :
  let v := render PRODUCT_SUB_CATEGORIES product
             (state_after (onChange (EditCategory val)) st) in
  subCategoryChoices v
  = match val with
    | [] => []
    | _ :: _ => match PRODUCT_SUB_CATEGORIES val with
                | Some options => options
                | None => []
                end
    end
  /\ (subCategoryDisabled v = true <-> val = [])
  /\ (PRODUCT_SUB_CATEGORIES val = None -> subCategoryChoices v = []).
Proof.
  intros v. subst v. unfold render, subCategoryOptions.
  cbn [subCategoryChoices subCategoryDisabled state_after onChange bind get
       setNewProduct modify fst snd newProduct category with_category].
  destruct val as [|c val]; cbn [str_truthy negb].
  - repeat split; auto.
  - split; [reflexivity|]. split; [split; discriminate|].
    intros ->. reflexivity.
Qed.

(** X25. The debounced fetch reads the page size of the render in
    which the text last changed: when a reply that carries another page
    size arrives while a search is pending, the search is still fetched
    with the old page size, while a page click after the reply uses the
    new one. *)
Theorem debounce_keeps_page_size
    (p : NewsletterPage.Page) (t : N) (v : jsstring) (t' : N)
    (data : list NewsletterPage.Newsletter)
    (carried : NewsletterPage.NewsletterPagination)
    (msg : option jsstring) (clicked : Z) (T : N) :
  NewsletterPage.armed t v p ->
  (t <= t')%N -> (t' < t + NewsletterPage.delay)%N ->
  (t + NewsletterPage.delay <= T)%N ->
  let reply := NewsletterPage.ReplyJson true data (Some carried) msg in
  NewsletterPage.trace
    (NewsletterPage.run p
       [NewsletterPage.Response t' reply; NewsletterPage.Wait T;
        NewsletterPage.PageClick T clicked])
  = NewsletterPage.trace p
    ++ [NewsletterPage.Fetch (t + 500)
          {| NewsletterPage.page := 1;
             NewsletterPage.limit :=
               NewsletterPage.itemsPerPage
                 (NewsletterPage.pagination (NewsletterPage.view p));
             NewsletterPage.search := v |};
        NewsletterPage.Fetch T
          {| NewsletterPage.page := clicked;
             NewsletterPage.limit := NewsletterPage.itemsPerPage carried;
             NewsletterPage.search := v |}].
Proof.
  intros Harm H1 H2 HT reply. subst reply.
  pose proof (DebounceFacts.advance_armed t v p t' Harm H1 H2) as Hadv.
  destruct Harm as (Hn & Hq & id & Ht & Hd).
  cbn [NewsletterPage.run fold_left NewsletterPage.step].
  rewrite Hadv.
  unfold NewsletterPage.fetchNewsletters_resume, NewsletterPage.with_view,
    NewsletterPage.advance at 2.
  cbn [NewsletterPage.timers NewsletterPage.now NewsletterPage.view
       NewsletterPage.trace].
  rewrite Ht. cbn [filter NewsletterPage.due].
  rewrite (proj2 (N.leb_le (t + NewsletterPage.delay) (N.max t' T))) by lia.
  unfold NewsletterPage.handlePageChange, NewsletterPage.advance,
    NewsletterPage.fetchNewsletters, NewsletterPage.cleanup.
  cbn. rewrite Hq, <- app_assoc.
  replace (N.max (N.max t' T) T) with T by lia.
  reflexivity.
Qed.

Lemma debounce_keeps_page_size_witness :
  NewsletterPage.fetches
    (NewsletterPage.trace
       (NewsletterPage.run (NewsletterPage.mount 0)
          [NewsletterPage.Response 100
             (NewsletterPage.ReplyJson true []
                (Some {| NewsletterPage.currentPage := 1;
                         NewsletterPage.itemsPerPage := 25;
                         NewsletterPage.hasMore := false;
                         NewsletterPage.offset := 0;
                         NewsletterPage.total := 0 |})
                None);
           NewsletterPage.Wait 600;
           NewsletterPage.PageClick 600 2]))
  = [(500%N, {| NewsletterPage.page := 1; NewsletterPage.limit := 10;
                NewsletterPage.search := [] |});
     (600%N, {| NewsletterPage.page := 2; NewsletterPage.limit := 25;
                NewsletterPage.search := [] |})].
Proof.
  rewrite (debounce_keeps_page_size (NewsletterPage.mount 0) 0 [] 100 []
             {| NewsletterPage.currentPage := 1;
                NewsletterPage.itemsPerPage := 25;
                NewsletterPage.hasMore := false;
                NewsletterPage.offset := 0;
                NewsletterPage.total := 0 |}
             None 2 600).
  - reflexivity.
  - apply PageFacts.mount_armed.
  - vm_compute. discriminate.
  - reflexivity.
  - vm_compute. discriminate.
Defined.

